(** * Rating-prediction notebook (module-4/review/Part 2.ipynb)

    A shallow embedding of the notebook's single code cell: the seeded
    sampling of users and movies, the dense user-item matrix, the call of
    the NMF solver, and the RMSE evaluation on the test table.

    Conventions.
    - A pandas table with the columns [uID], [mID], [rating] is a list of
      [row] records, in row order; a Series or an ndarray of ids is a
      [list Z]; a Python dict from ids to positions is a [gmap Z nat].
    - A two-dimensional float array is a list of rows, [list (list R)].
      Ratings and predictions are real numbers there, which gives the
      formulas of the cell without rounding, overflow or NaN. The last
      line, whose value depends on rounding, is modelled a second time on
      binary64 floats ([score64]).
    - A Python exception is a [Raise e] result; the library calls raise the
      exceptions their implementations raise on the inputs in question.
    - The random number generator of numpy and the NMF solver of sklearn
      are interfaces ([NumpyRandom], [NMFSolver]); the notebook is written
      against them. *)

From Stdlib Require Import Floats Uint63.
From Stdlib Require Import Reals Lra.
From stdpp Require Import gmap list.

(** ** Exceptions and results *)

(** The reasons for which the library calls of the notebook raise
    [ValueError]:
    - [EmptyPopulation], numpy's [choice]: "a must be greater than 0
      unless no samples are taken";
    - [LargerSampleThanPopulation], numpy's [choice]: "Cannot take a larger
      sample than population when 'replace=False'";
    - [InconsistentSamples], sklearn's [check_consistent_length]: "Found
      input variables with inconsistent numbers of samples";
    - [ZeroSamples], sklearn's [check_array]: "Found array with 0 sample(s)
      ... while a minimum of 1 is required";
    - [SolverRejected], any other [ValueError] of the NMF solver;
    - [SeedOutOfRange], numpy's [RandomState]: "Seed must be between 0 and
      2**32 - 1";
    - [InputNotFinite], sklearn's [check_array]: "Input contains NaN" or
      "Input contains infinity". *)
Inductive value_error : Type :=
  | EmptyPopulation
  | LargerSampleThanPopulation
  | InconsistentSamples
  | ZeroSamples
  | SolverRejected
  | SeedOutOfRange
  | InputNotFinite.

Inductive exn : Type :=
  | ValueError (why : value_error)
  | KeyError (key : Z)
  | IndexError.

Inductive result (A : Type) : Type :=
  | Ok (a : A)
  | Raise (e : exn).
Arguments Ok {A} a.
Arguments Raise {A} e.

#[export] Instance result_ret : MRet result := @Ok.
#[export] Instance result_bind : MBind result :=
  λ A B f c, match c with Ok a => f a | Raise e => Raise e end.
#[export] Instance result_fmap : FMap result :=
  λ A B f c, match c with Ok a => Ok (f a) | Raise e => Raise e end.

(** ** Tables *)

Record row : Type := Row { uID : Z; mID : Z; rating : R }.

Abbreviation table := (list row).
Abbreviation matrix := (list (list R)).

(** ** pandas *)

(** [Series.unique()]: the distinct values, in order of first appearance. *)
Fixpoint unique (s : list Z) : list Z :=
  match s with
  | [] => []
  | x :: s' => x :: filter (λ y, y ≠ x) (unique s')
  end.

(** [Series.drop_duplicates()] (keep='first'): the same values as [unique],
    in the same order. *)
Definition drop_duplicates (s : list Z) : list Z := unique s.

(** [Series.isin(values)], for one element of the series. *)
Definition isin (x : Z) (values : list Z) : bool := bool_decide (x ∈ values).

(** [Series.take(positions)]: a position outside the series raises. *)
Definition take_positions (s : list Z) (positions : list nat) : result (list Z) :=
  mapM (λ i, match s !! i with Some x => Ok x | None => Raise IndexError end)
       positions.

(** ** numpy *)

(** The generator behind [np.random.RandomState]: [RandomState seed] is the
    generator freshly seeded with a seed that numpy accepts (the check of
    the seed is [seeded_RandomState]) and [permutation g n] shuffles
    [arange(n)], returning the advanced generator. *)
Class NumpyRandom : Type := {
  rng : Type;
  RandomState : Z → rng;
  permutation : rng → nat → list nat * rng;
  permutation_Permutation : ∀ g n, (permutation g n).1 ≡ₚ seq 0 n
}.

(** [np.zeros((U, M))] *)
Definition zeros (U M : nat) : matrix := replicate U (replicate M 0%R).

(** [matrix[i, j] = v], with numpy's bounds check. *)
Definition setitem (a : matrix) (i j : nat) (v : R) : result matrix :=
  match a !! i with
  | Some r =>
      if decide (j < length r) then Ok (<[i := <[j := v]> r]> a)
      else Raise IndexError
  | None => Raise IndexError
  end.

(** [matrix[i, j]], with numpy's bounds check. *)
Definition getitem (a : matrix) (i j : nat) : result R :=
  match a !! i with
  | Some r => match r !! j with Some v => Ok v | None => Raise IndexError end
  | None => Raise IndexError
  end.

(** [d[k]] on a dict. *)
Definition dict_get (d : gmap Z nat) (k : Z) : result nat :=
  match d !! k with Some i => Ok i | None => Raise (KeyError k) end.

(** [{u: i for i, u in enumerate(index)}]: the entries are inserted in
    order, a later entry replacing an earlier one with the same key. *)
Definition dict_of_enumerate (index : list Z) : gmap Z nat :=
  foldl (λ d iu, <[iu.2 := iu.1]> d) ∅ (imap pair index).

Definition Rsum (l : list R) : R := foldr Rplus 0%R l.

(** [np.average(a)] of a one-dimensional array. *)
Definition average (a : list R) : R := (Rsum a / INR (length a))%R.

(** One row of [np.dot(W, H)]: the combination of the rows of [H] with the
    coefficients [w]. *)
Definition vecmat (w : list R) (H : matrix) (M : nat) : list R :=
  foldr (zip_with Rplus) (replicate M 0%R)
        (zip_with (λ a h, map (Rmult a) h) w H).

(** [np.dot(W, H)] for [W] of shape U×K and [H] of shape K×M. *)
Definition dot (W H : matrix) : matrix :=
  map (λ w, vecmat w H (length (default [] (head H)))) W.

Definition has_shape (a : matrix) (U M : nat) : Prop :=
  length a = U ∧ Forall (λ r, length r = M) a.

(** The integer seeds that [np.random.RandomState] accepts. *)
Definition valid_seed (seed : Z) : Prop := (0 ≤ seed < 2 ^ 32)%Z.

#[export] Instance valid_seed_dec seed : Decision (valid_seed seed).
Proof. unfold valid_seed. apply _. Defined.

Section numpy_random.
Context `{NumpyRandom}.

(** [np.random.RandomState(seed)] for an integer seed, which pandas calls
    before anything else in [sample]: a seed outside 0 .. 2**32 - 1
    raises. *)
Definition seeded_RandomState (seed : Z) : result rng :=
  if decide (valid_seed seed) then Ok (RandomState seed)
  else Raise (ValueError SeedOutOfRange).

(** [RandomState.choice(a, size, replace=False)] for an integer
    population [a]: the two checks, then a prefix of a permutation. *)
Definition choice (a size : nat) (g : rng) : result (list nat) * rng :=
  if decide (a = 0 ∧ size ≠ 0) then (Raise (ValueError EmptyPopulation), g)
  else if decide (a < size) then
    (Raise (ValueError LargerSampleThanPopulation), g)
  else let '(p, g') := permutation g a in (Ok (take size p), g').

(** [Series.sample(n, random_state=...)]: with an integer [random_state]
    the positions are drawn from a generator seeded for this call, and
    the global generator [np_random] is left alone; with
    [random_state=None] they are drawn from the global generator. *)
Definition sample (n : nat) (random_state : option Z) (s : list Z)
    (np_random : rng) : result (list Z) * rng :=
  match random_state with
  | Some seed =>
      (seeded_RandomState seed
         ≫= (λ g, (choice (length s) n g).1 ≫= take_positions s),
       np_random)
  | None =>
      let '(positions, g') := choice (length s) n np_random in
      (positions ≫= take_positions s, g')
  end.
End numpy_random.

(** ** sklearn *)

(** [NMF(n_components, init='random', random_state, max_iter)]:
    [fit_transform X] is the pair of [model.fit_transform(matrix)] and
    [model.components_], of shapes U×K and K×M for [X] of shape U×M, or a
    [ValueError]. Non-convergence is a warning, not an exception. *)
Class NMFSolver : Type := {
  fit_transform : nat → Z → nat → matrix → result (matrix * matrix);
  fit_transform_raises : ∀ k seed it X e,
    fit_transform k seed it X = Raise e → ∃ why, e = ValueError why;
  fit_transform_shape : ∀ k seed it X W Hm U M,
    has_shape X U M →
    fit_transform k seed it X = Ok (W, Hm) →
    has_shape W U k ∧ has_shape Hm k M
}.

(** [sklearn.metrics.mean_squared_error(y_true, y_pred)]: the input
    validation, then the average of the squared differences. *)
Definition mean_squared_error (y_true y_pred : list R) : result R :=
  if decide (length y_true ≠ length y_pred) then
    Raise (ValueError InconsistentSamples)
  else if decide (length y_true = 0) then Raise (ValueError ZeroSamples)
  else Ok (average (zip_with (λ a p, ((a - p) ^ 2)%R) y_true y_pred)).

(** ** The notebook *)

(** The constants of the cell. *)
Definition n_users : nat := 500.
Definition n_movies : nat := 500.
Definition random_state : Z := 42.
Definition n_components : nat := 20.
Definition max_iter : nat := 200.

(** [train_data[train_data['uID'].isin(us) & train_data['mID'].isin(ms)]] *)
Definition restrict (data : table) (us ms : list Z) : table :=
  filter (λ r, isin (uID r) us && isin (mID r) ms) data.

Section sampler.
Context `{NumpyRandom}.

(** [selected_users], [selected_movies] and [subset], for a sample size
    and a seed; the cell uses [n_users], [n_movies] and [random_state]. *)
Definition selected_users (n : nat) (seed : Z) (train_data : table)
    (np_random : rng) : result (list Z) * rng :=
  sample n (Some seed) (drop_duplicates (uID <$> train_data)) np_random.

Definition selected_movies (n : nat) (seed : Z) (train_data : table)
    (np_random : rng) : result (list Z) * rng :=
  sample n (Some seed) (drop_duplicates (mID <$> train_data)) np_random.

Definition Sampler (nu nm : nat) (seed : Z) (train_data : table)
    (np_random : rng) : result (list Z * list Z * table) * rng :=
  let '(users, g1) := selected_users nu seed train_data np_random in
  match users with
  | Raise e => (Raise e, g1)
  | Ok users =>
      let '(movies, g2) := selected_movies nm seed train_data g1 in
      match movies with
      | Raise e => (Raise e, g2)
      | Ok movies => (Ok (users, movies, restrict train_data users movies), g2)
      end
  end.
End sampler.

(** The loop [for row in subset.itertuples(): matrix[u_map[row.uID],
    m_map[row.mID]] = row.rating]. *)
Fixpoint fill (u_map m_map : gmap Z nat) (rows : table) (a : matrix)
    : result matrix :=
  match rows with
  | [] => Ok a
  | r :: rows' =>
      i ← dict_get u_map (uID r);
      j ← dict_get m_map (mID r);
      a' ← setitem a i j (rating r);
      fill u_map m_map rows' a'
  end.

Record built : Type := Built {
  u_index : list Z;
  m_index : list Z;
  u_map : gmap Z nat;
  m_map : gmap Z nat;
  ratings : matrix
}.

(** Lines 59-67 of the cell. *)
Definition MatrixBuilder (subset : table) : result built :=
  let u_index := unique (uID <$> subset) in
  let m_index := unique (mID <$> subset) in
  let u_map := dict_of_enumerate u_index in
  let m_map := dict_of_enumerate m_index in
  a ← fill u_map m_map subset (zeros (length u_index) (length m_index));
  Ok (Built u_index m_index u_map m_map a).

(** The loop that collects [actual] and [predicted] (lines 78-81). *)
Fixpoint collect (reconstructed : matrix) (u_map m_map : gmap Z nat)
    (rows : table) (actual predicted : list R) : result (list R * list R) :=
  match rows with
  | [] => Ok (actual, predicted)
  | r :: rows' =>
      i ← dict_get u_map (uID r);
      j ← dict_get m_map (mID r);
      p ← getitem reconstructed i j;
      collect reconstructed u_map m_map rows'
              (actual ++ [rating r]) (predicted ++ [p])
  end.

(** [np.sqrt(mean_squared_error(actual, predicted))] *)
Definition score (actual predicted : list R) : result R :=
  sqrt <$> mean_squared_error actual predicted.

(** [eval_set] (lines 74-76). *)
Definition eval_set (test_data : table) (u_index m_index : list Z) : table :=
  restrict test_data u_index m_index.

(** Lines 74-83 of the cell. *)
Definition Evaluator (reconstructed : matrix) (b : built) (test_data : table)
    : result R :=
  ap ← collect reconstructed (u_map b) (m_map b)
               (eval_set test_data (u_index b) (m_index b)) [] [];
  score ap.1 ap.2.

Section notebook.
Context `{NumpyRandom} `{NMFSolver}.

(** Lines 69-72. *)
Definition reconstruct (a : matrix) : result matrix :=
  WH ← fit_transform n_components random_state max_iter a;
  Ok (dot WH.1 WH.2).

(** The whole cell, from the two rating tables to [score]. *)
Definition notebook (train_data test_data : table) (np_random : rng)
    : result R * rng :=
  let '(s, g) := Sampler n_users n_movies random_state train_data np_random in
  (s ← s;
   b ← MatrixBuilder s.2;
   reconstructed ← reconstruct (ratings b);
   Evaluator reconstructed b test_data, g).
End notebook.

Section pipeline.
Context `{NumpyRandom} `{NMFSolver}.

(** The cell with its five constants as parameters: the two sample sizes,
    the seed that the two draws and the solver share, the number of
    components and the iteration bound. *)
Definition pipeline (nu nm : nat) (seed : Z) (k it : nat)
    (train_data test_data : table) (np_random : rng) : result R * rng :=
  let '(s, g) := Sampler nu nm seed train_data np_random in
  (s ← s;
   b ← MatrixBuilder s.2;
   WH ← fit_transform k seed it (ratings b);
   Evaluator (dot WH.1 WH.2) b test_data, g).
End pipeline.

(** ** Vocabulary of the statements *)

(** A dict [d] sends the ids of [ids] one-to-one onto the positions
    [0 .. n-1]. *)
Definition bijection_onto (d : gmap Z nat) (ids : list Z) (n : nat) : Prop :=
  (∀ u, u ∈ ids ↔ is_Some (d !! u)) ∧
  (∀ u i, d !! u = Some i → i < n) ∧
  (∀ u u' i, d !! u = Some i → d !! u' = Some i → u = u') ∧
  (∀ i, i < n → ∃ u, d !! u = Some i).

(** The cell [(i, j)] of a matrix, when it exists. *)
Definition cell (a : matrix) (i j : nat) : option R := a !! i ≫= (.!! j).

(** The rating of the last row of [rows] for the pair [(u, m)]. *)
Definition last_rating (u m : Z) (rows : table) : option R :=
  rating <$> last (filter (λ r, uID r = u ∧ mID r = m) rows).

(** The row [r] of the training subset is written to the cell [(i, j)]. *)
Definition writes (u_map m_map : gmap Z nat) (i j : nat) (r : row) : Prop :=
  u_map !! uID r = Some i ∧ m_map !! mID r = Some j.

#[export] Instance writes_dec u_map m_map i j r :
  Decision (writes u_map m_map i j r).
Proof. unfold writes. apply _. Defined.

(** A test row is retained when both of its ids are keys of the dicts. *)
Definition retained (b : built) (r : row) : Prop :=
  is_Some (u_map b !! uID r) ∧ is_Some (m_map b !! mID r).

(** The predicted rating of a test row: the entry of the reconstructed
    matrix at the positions of the row's ids. *)
Definition prediction (reconstructed : matrix) (b : built) (r : row)
    : option R :=
  i ← u_map b !! uID r; j ← m_map b !! mID r; cell reconstructed i j.

(** The root of the mean of the squared differences of a list of
    (actual, predicted) pairs. *)
Definition rmse (pairs : list (R * R)) : R :=
  sqrt (Rsum ((λ ap, ((ap.1 - ap.2) ^ 2)%R) <$> pairs) / INR (length pairs)).

(** The positions that a seeded draw of [n] out of [a] elements takes. *)
Definition seeded_positions `{NumpyRandom} (seed : Z) (a n : nat) : list nat :=
  take n (permutation (RandomState seed) a).1.

(** The ids that a seeded draw of [n] ids from the series [s] returns. *)
Definition seeded_sample `{NumpyRandom} (n : nat) (seed : Z) (s : list Z)
    : result (list Z) :=
  if decide (valid_seed seed) then
    if decide (length s = 0 ∧ n ≠ 0) then Raise (ValueError EmptyPopulation)
    else if decide (length s < n) then
      Raise (ValueError LargerSampleThanPopulation)
    else take_positions s (seeded_positions seed (length s) n)
  else Raise (ValueError SeedOutOfRange).
Arguments seeded_sample : simpl never.

(** A training table with 502 users and 502 movies in which the sampled
    users cannot all keep a rating: user 0 rates every movie, and each
    user [i] from 1 to 501 rates the single movie [next_movie i]. *)
Definition next_movie (i : nat) : nat := if decide (i = 501) then 1 else S i.

Definition cold_users : table :=
  ((λ j, Row 0 (Z.of_nat j) 3) <$> seq 0 502) ++
  ((λ i, Row (Z.of_nat i) (Z.of_nat (next_movie i)) 3) <$> seq 1 501).

(** The same table with the roles of users and movies exchanged. *)
Definition transpose (r : row) : row := Row (mID r) (uID r) (rating r).

Definition cold_movies : table := transpose <$> cold_users.

(** ** The score in binary64 (line 83)

    The real-number [score] above gives the formula of the score. Whether
    the score is 0 depends on float64 rounding, so the same line is also
    modelled on Rocq's binary64 floats. *)

(** The values that sklearn's [check_array] accepts: neither NaN nor
    infinite. *)
Definition finite64 (x : float) : bool :=
  match Prim2SF x with
  | S754_zero _ | S754_finite _ _ _ => true
  | _ => false
  end.

(** The float64 value of a count, by which the sum is divided. *)
Definition float_of_nat (n : nat) : float :=
  of_uint63 (Uint63.of_Z (Z.of_nat n)).

(** [(y_true - y_pred) ** 2], element by element; numpy squares by
    multiplying. *)
Definition squared_errors64 (y_true y_pred : list float) : list float :=
  zip_with (λ a p, ((a - p) * (a - p))%float) y_true y_pred.


(** The additions from left to right, starting from 0 (numpy's order for
    fewer than 8 elements). *)
Definition sum64 (l : list float) : float := foldl PrimFloat.add 0%float l.

(** [mean_squared_error(y_true, y_pred)] on float64 values, for a way
    [sum] of adding. *)
Definition mean_squared_error64 (sum : list float → float)
    (y_true y_pred : list float) : result float :=
  if decide (length y_true ≠ length y_pred) then
    Raise (ValueError InconsistentSamples)
  else if decide (length y_true = 0) then Raise (ValueError ZeroSamples)
  else if forallb finite64 y_true && forallb finite64 y_pred then
    Ok (sum (squared_errors64 y_true y_pred)
        / float_of_nat (length y_true))%float
  else Raise (ValueError InputNotFinite).

(** [np.sqrt(mean_squared_error(actual, predicted))] on float64 values. *)
Definition score64_with (sum : list float → float)
    (actual predicted : list float) : result float :=
  PrimFloat.sqrt <$> mean_squared_error64 sum actual predicted.

Definition score64 : list float → list float → result float :=
  score64_with sum64.




(** ** Instances of the interfaces, for the examples *)

(** A generator whose state is a counter: the shuffle of [arange(n)] is
    its rotation by the counter. *)
Definition rotate_seq_Permutation (g n : nat) : rotate g (seq 0 n) ≡ₚ seq 0 n.
Proof.
  unfold rotate. rewrite Permutation_app_comm. by rewrite take_drop.
Qed.

Definition counter_random : NumpyRandom := {|
  rng := nat;
  RandomState seed := Z.to_nat seed;
  permutation g n := (rotate g (seq 0 n), S g);
  permutation_Permutation := rotate_seq_Permutation
|}.

(** A solver that returns the zero factors of the right shapes. *)
Definition zero_fit_transform (k : nat) (seed : Z) (it : nat) (X : matrix)
    : result (matrix * matrix) :=
  match X with
  | [] => Raise (ValueError ZeroSamples)
  | line :: _ => Ok (zeros (length X) k, zeros k (length line))
  end.

Definition zero_fit_transform_raises (k : nat) (seed : Z) (it : nat)
    (X : matrix) (e : exn) :
  zero_fit_transform k seed it X = Raise e → ∃ why, e = ValueError why.
Proof. destruct X; intros [= <-]. by eexists. Qed.

Definition zero_fit_transform_shape (k : nat) (seed : Z) (it : nat)
    (X W Hm : matrix) (U M : nat) :
  has_shape X U M → zero_fit_transform k seed it X = Ok (W, Hm) →
  has_shape W U k ∧ has_shape Hm k M.
Proof.
  intros [<- Hcols]. destruct X as [|line X]; intros [= <- <-].
  apply Forall_inv in Hcols as <-. unfold has_shape, zeros.
  rewrite !length_replicate.
  repeat split; apply Forall_replicate, length_replicate.
Qed.

Definition zero_solver : NMFSolver := {|
  fit_transform := zero_fit_transform;
  fit_transform_raises := zero_fit_transform_raises;
  fit_transform_shape := zero_fit_transform_shape
|}.

(** A training subset with a repeated (user, movie) pair, the result of the
    Matrix Builder on it, and a test table with one unseen user. *)
Definition small_subset : table := [Row 7 3 5; Row 8 3 2; Row 7 3 1].

Definition small_built : built :=
  Built [7; 8]%Z [3]%Z (dict_of_enumerate [7; 8]%Z) (dict_of_enumerate [3]%Z)
        [[1%R]; [2%R]].

Definition small_test : table := [Row 7 3 4; Row 9 3 4; Row 8 3 2].

(** The column [j] of a matrix and the inner product of two vectors. *)
Definition column (a : matrix) (j : nat) : list R :=
  (λ line, default 0%R (line !! j)) <$> a.

Definition inner (x y : list R) : R := Rsum (zip_with Rmult x y).

(** A test table whose retained rows repeat the last training ratings of
    [small_subset], and the score of a small run of the cell. *)
Definition small_exact_test : table := [Row 7 3 1; Row 9 3 4; Row 8 3 2].

Definition small_score : R :=
  match (pipeline (H:=counter_random) (H0:=zero_solver) 2 1 42 1 1
           small_subset small_test 0%nat).1
  with Ok s => s | Raise _ => 0%R end.

(** * Properties *)

(** ** [unique] *)

Lemma elem_of_unique (x : Z) (s : list Z) : x ∈ unique s ↔ x ∈ s.
Proof.
  induction s as [|y s IH]; simpl; [done|].
  rewrite !elem_of_cons, list_elem_of_filter, IH.
  destruct (decide (x = y)); tauto.
Qed.

Lemma NoDup_unique (s : list Z) : NoDup (unique s).
Proof.
  induction s as [|y s IH]; simpl; [constructor|].
  constructor.
  - rewrite list_elem_of_filter. tauto.
  - by apply NoDup_filter.
Qed.

Lemma filter_ne_id (x : Z) (s : list Z) : x ∉ s → filter (λ y, y ≠ x) s = s.
Proof.
  induction s as [|y s IHs]; [done|].
  intros [Hxy Hx]%not_elem_of_cons.
  rewrite filter_cons, decide_True by done. f_equal. auto.
Qed.

Lemma unique_NoDup (s : list Z) : NoDup s → unique s = s.
Proof.
  induction 1 as [|x s Hx _ IH]; simpl; [done|].
  rewrite IH. f_equal. by apply filter_ne_id.
Qed.

(** ** The id-to-index dicts *)

Lemma dict_of_enumerate_from (l : list Z) (k : nat) (d : gmap Z nat)
    (u : Z) (n : nat) :
  NoDup l →
  (foldl (λ d iu, <[iu.2 := iu.1]> d) d (imap (λ i, pair (k + i)) l) !! u
    = Some n) ↔
  (∃ i, l !! i = Some u ∧ n = k + i) ∨ ((u ∉ l) ∧ d !! u = Some n).
Proof.
  intros Hl. revert k d.
  induction Hl as [|x l Hx Hl IH]; intros k d; simpl.
  - split; [intros Hd; right; split; [apply not_elem_of_nil | done]|].
    intros [(i & Hi & _) | [_ Hd]]; [done | done].
  - rewrite (imap_ext _ (λ i, pair (S k + i))) by (intros; simpl; f_equal; lia).
    rewrite IH. split.
    + intros [(i & Hi & ->) | [Hu Hd]].
      * left. exists (S i). split; [done | lia].
      * destruct (decide (u = x)) as [->|Hne].
        -- rewrite lookup_insert_eq in Hd. left. exists 0.
           split; [done | congruence].
        -- rewrite lookup_insert_ne in Hd by done. right.
           split; [|done]. by apply not_elem_of_cons.
    + intros [(i & Hi & ->) | [Hu Hd]].
      * destruct i as [|i]; simpl in Hi.
        -- injection Hi as ->. right. split; [done|].
           rewrite lookup_insert_eq. done.
        -- left. exists i. split; [done | lia].
      * apply not_elem_of_cons in Hu as [Hne Hu]. right. split; [done|].
        by rewrite lookup_insert_ne.
Qed.

Lemma dict_of_enumerate_lookup (l : list Z) (u : Z) (n : nat) :
  NoDup l → dict_of_enumerate l !! u = Some n ↔ l !! n = Some u.
Proof.
  intros Hl. unfold dict_of_enumerate.
  rewrite (imap_ext _ (λ i, pair (0 + i))) by done.
  rewrite dict_of_enumerate_from by done. split.
  - intros [(i & Hi & ->) | [_ Hd]]; [done|]. by rewrite lookup_empty in Hd.
  - intros Hn. left. by exists n.
Qed.

Lemma dict_of_enumerate_bijection (ids : list Z) :
  bijection_onto (dict_of_enumerate (unique ids)) ids (length (unique ids)).
Proof.
  pose proof (NoDup_unique ids) as Hnd.
  repeat split.
  - intros Hu. apply elem_of_unique, list_elem_of_lookup in Hu as [i Hi].
    exists i. by apply dict_of_enumerate_lookup.
  - intros [i Hi]. apply dict_of_enumerate_lookup in Hi; [|done].
    apply elem_of_unique. by eapply list_elem_of_lookup_2.
  - intros u i Hi. apply dict_of_enumerate_lookup in Hi; [|done].
    by eapply lookup_lt_Some.
  - intros u u' i Hu Hu'.
    apply dict_of_enumerate_lookup in Hu, Hu'; [|done..]. congruence.
  - intros i Hi. apply lookup_lt_is_Some_2 in Hi as [u Hu].
    exists u. by apply dict_of_enumerate_lookup.
Qed.

(** ** The rating matrix *)

Lemma has_shape_zeros (U M : nat) : has_shape (zeros U M) U M.
Proof.
  split; unfold zeros.
  - apply length_replicate.
  - apply Forall_replicate, length_replicate.
Qed.

Lemma cell_zeros (U M i j : nat) :
  i < U → j < M → cell (zeros U M) i j = Some 0%R.
Proof.
  intros Hi Hj. unfold cell, zeros.
  rewrite lookup_replicate_2 by done. simpl.
  by apply lookup_replicate_2.
Qed.

Lemma has_shape_lookup (a : matrix) (U M i : nat) (r : list R) :
  has_shape a U M → a !! i = Some r → i < U ∧ length r = M.
Proof.
  intros [<- Hall] Hr. split; [by eapply lookup_lt_Some|].
  by eapply (Forall_lookup_1 _ _ _ _ Hall).
Qed.

Lemma cell_is_Some (a : matrix) (U M i j : nat) :
  has_shape a U M → i < U → j < M → is_Some (cell a i j).
Proof.
  intros Ha Hi Hj. unfold cell.
  destruct (lookup_lt_is_Some_2 a i) as [r Hr]; [destruct Ha; lia|].
  rewrite Hr. simpl. apply lookup_lt_is_Some_2.
  by destruct (has_shape_lookup _ _ _ _ _ Ha Hr) as [_ ->].
Qed.

Lemma setitem_spec (a : matrix) (U M i j : nat) (v : R) :
  has_shape a U M → i < U → j < M →
  ∃ a', setitem a i j v = Ok a' ∧ has_shape a' U M ∧
    ∀ i' j', cell a' i' j' =
             if decide (i' = i ∧ j' = j) then Some v else cell a i' j'.
Proof.
  intros Ha Hi Hj. unfold setitem.
  destruct (lookup_lt_is_Some_2 a i) as [r Hr]; [destruct Ha; lia|].
  destruct (has_shape_lookup _ _ _ _ _ Ha Hr) as [_ Hlen].
  rewrite Hr, decide_True by lia.
  eexists. split; [done|]. split.
  - destruct Ha as [Hrows Hall]. split; [by rewrite length_insert|].
    apply Forall_insert; [done|]. by rewrite length_insert.
  - intros i' j'. unfold cell. destruct (decide (i' = i)) as [->|Hne].
    + rewrite list_lookup_insert_eq by (destruct Ha; lia). simpl.
      rewrite Hr. simpl. destruct (decide (j' = j)) as [->|Hnej].
      * rewrite decide_True by done.
        apply list_lookup_insert_eq. lia.
      * rewrite decide_False by tauto. by apply list_lookup_insert_ne.
    + rewrite list_lookup_insert_ne by done.
      by rewrite decide_False by tauto.
Qed.

Lemma fill_spec (u_map m_map : gmap Z nat) (U M : nat) (rows : table)
    (a : matrix) :
  has_shape a U M →
  (∀ r, r ∈ rows →
     ∃ i j, u_map !! uID r = Some i ∧ i < U ∧ m_map !! mID r = Some j ∧ j < M) →
  ∃ a', fill u_map m_map rows a = Ok a' ∧ has_shape a' U M ∧
    ∀ i j, cell a' i j =
           match last (filter (writes u_map m_map i j) rows) with
           | Some r => Some (rating r)
           | None => cell a i j
           end.
Proof.
  revert a. induction rows as [|r rows IH]; intros a Ha Hrows; simpl.
  - by exists a.
  - destruct (Hrows r) as (i0 & j0 & Hu & Hi0 & Hm & Hj0); [left|].
    unfold dict_get. rewrite Hu, Hm. simpl.
    destruct (setitem_spec a U M i0 j0 (rating r) Ha Hi0 Hj0)
      as (a1 & -> & Ha1 & Hcell1). simpl.
    destruct (IH a1 Ha1) as (a' & -> & Ha' & Hcell').
    { intros r' Hr'. apply Hrows. by right. }
    exists a'. split; [done|]. split; [done|].
    intros i j. rewrite Hcell', Hcell1, filter_cons.
    destruct (decide (writes u_map m_map i j r)) as [[Hwu Hwm]|Hnw].
    + rewrite last_cons, decide_True by (split; congruence).
      by destruct (last _).
    + rewrite decide_False; [done|].
      intros [-> ->]. by apply Hnw.
Qed.

Lemma filter_none {A} (P : A → Prop) `{!∀ x, Decision (P x)} (l : list A) :
  (∀ x, x ∈ l → ¬ P x) → filter P l = [].
Proof.
  induction l as [|x l IH]; intros Hl; [done|].
  rewrite filter_cons_False by (apply Hl; left).
  apply IH. intros y Hy. apply Hl. by right.
Qed.

(** The Matrix Builder never raises: every id of the subset is a key of
    its dict and every position is inside the matrix. *)
Lemma MatrixBuilder_spec (subset : table) :
  let ui := unique (uID <$> subset) in
  let mi := unique (mID <$> subset) in
  let um := dict_of_enumerate ui in
  let mm := dict_of_enumerate mi in
  ∃ a, MatrixBuilder subset = Ok (Built ui mi um mm a) ∧
    has_shape a (length ui) (length mi) ∧
    ∀ i j, cell a i j =
           match last (filter (writes um mm i j) subset) with
           | Some r => Some (rating r)
           | None => cell (zeros (length ui) (length mi)) i j
           end.
Proof.
  intros ui mi um mm. unfold MatrixBuilder. fold ui mi um mm.
  destruct (dict_of_enumerate_bijection (uID <$> subset))
    as (Hu1 & Hu2 & _ & _).
  destruct (dict_of_enumerate_bijection (mID <$> subset))
    as (Hm1 & Hm2 & _ & _).
  destruct (fill_spec um mm (length ui) (length mi) subset
              (zeros (length ui) (length mi)))
    as (a & Hfill & Ha & Hcell).
  { apply has_shape_zeros. }
  { intros r Hr.
    destruct (proj1 (Hu1 (uID r))) as [i Hi]; [by apply list_elem_of_fmap_2|].
    destruct (proj1 (Hm1 (mID r))) as [j Hj]; [by apply list_elem_of_fmap_2|].
    exists i, j. repeat split; [done | by eapply Hu2 | done | by eapply Hm2]. }
  exists a. rewrite Hfill. split; [done|]. split; [done|]. exact Hcell.
Qed.

Lemma writes_iff (subset : table) (i j : nat) (r r' : row) :
  let um := dict_of_enumerate (unique (uID <$> subset)) in
  let mm := dict_of_enumerate (unique (mID <$> subset)) in
  writes um mm i j r →
  writes um mm i j r' ↔ uID r' = uID r ∧ mID r' = mID r.
Proof.
  intros um mm [Hu Hm].
  destruct (dict_of_enumerate_bijection (uID <$> subset))
    as (_ & _ & Hu3 & _).
  destruct (dict_of_enumerate_bijection (mID <$> subset))
    as (_ & _ & Hm3 & _).
  unfold writes. split.
  - intros [Hu' Hm']. split; [by eapply Hu3 | by eapply Hm3].
  - intros [-> ->]. done.
Qed.

(** C8: the dicts [u_map] and [m_map] built by the Matrix Builder are
    bijections from the distinct user ids (movie ids) of the sampled
    training subset onto the row positions [0, U) (column positions
    [0, M)) of the rating matrix: every id of the subset is a key, every
    key is an id of the subset, no two ids share a position and every
    position is taken. *)
Theorem id_maps_bijective (subset : table) :
  ∃ b U M, MatrixBuilder subset = Ok b ∧
    U = length (unique (uID <$> subset)) ∧
    M = length (unique (mID <$> subset)) ∧
    has_shape (ratings b) U M ∧
    bijection_onto (u_map b) (uID <$> subset) U ∧
    bijection_onto (m_map b) (mID <$> subset) M.
Proof.
  destruct (MatrixBuilder_spec subset) as (a & Hb & Ha & _).
  eexists _, _, _. split; [exact Hb|]. simpl.
  repeat split; try reflexivity; try apply Ha;
    apply dict_of_enumerate_bijection.
Qed.

(** C2: the Matrix Builder returns, and in its matrix the cell of every
    (user, movie) pair of the subset holds the rating of the last subset
    row for that pair, while every cell of the matrix that no subset row
    is written to holds 0. *)
Theorem matrix_last_write_wins (subset : table) :
  ∃ b, MatrixBuilder subset = Ok b ∧
    has_shape (ratings b) (length (u_index b)) (length (m_index b)) ∧
    (∀ r, r ∈ subset →
       ∃ i j v, u_map b !! uID r = Some i ∧ m_map b !! mID r = Some j ∧
         last_rating (uID r) (mID r) subset = Some v ∧
         cell (ratings b) i j = Some v) ∧
    (∀ i j, i < length (u_index b) → j < length (m_index b) →
       (∀ r, r ∈ subset → ¬ writes (u_map b) (m_map b) i j r) →
       cell (ratings b) i j = Some 0%R).
Proof.
  destruct (MatrixBuilder_spec subset) as (a & Hb & Ha & Hcell).
  eexists. split; [exact Hb|]. simpl. split; [done|]. split.
  - intros r Hr.
    destruct (dict_of_enumerate_bijection (uID <$> subset)) as (Hu1 & _).
    destruct (dict_of_enumerate_bijection (mID <$> subset)) as (Hm1 & _).
    destruct (proj1 (Hu1 (uID r))) as [i Hi]; [by apply list_elem_of_fmap_2|].
    destruct (proj1 (Hm1 (mID r))) as [j Hj]; [by apply list_elem_of_fmap_2|].
    assert (Hw : writes (dict_of_enumerate (unique (uID <$> subset)))
                   (dict_of_enumerate (unique (mID <$> subset))) i j r)
      by done.
    pose proof (Hcell i j) as Hc.
    rewrite (list_filter_iff _ (λ r', uID r' = uID r ∧ mID r' = mID r))
      in Hc by (intros r'; by apply writes_iff).
    unfold last_rating. destruct (last _) as [r'|] eqn:Hlast.
    + by exists i, j, (rating r').
    + apply last_None in Hlast.
      assert (r ∈ filter (λ r', uID r' = uID r ∧ mID r' = mID r) subset)
        as Hin by (by apply list_elem_of_filter).
      rewrite Hlast in Hin. by apply elem_of_nil in Hin.
  - intros i j Hi Hj Hnone. rewrite Hcell, filter_none by done. simpl.
    by apply cell_zeros.
Qed.

(** ** The evaluation set *)

Lemma isin_spec (x : Z) (values : list Z) : isin x values ↔ x ∈ values.
Proof. unfold isin. apply bool_decide_spec. Qed.

Lemma restrict_filter (data : table) (us ms : list Z) :
  restrict data us ms = filter (λ r, uID r ∈ us ∧ mID r ∈ ms) data.
Proof.
  unfold restrict. apply list_filter_iff. intros r.
  by rewrite andb_True, !isin_spec.
Qed.

Lemma MatrixBuilder_inv (subset : table) (b : built) :
  MatrixBuilder subset = Ok b →
  u_index b = unique (uID <$> subset) ∧
  m_index b = unique (mID <$> subset) ∧
  u_map b = dict_of_enumerate (unique (uID <$> subset)) ∧
  m_map b = dict_of_enumerate (unique (mID <$> subset)).
Proof.
  destruct (MatrixBuilder_spec subset) as (a & Hb & _).
  rewrite Hb. by intros [= <-].
Qed.

Lemma retained_iff (subset : table) (b : built) (r : row) :
  MatrixBuilder subset = Ok b →
  retained b r ↔ uID r ∈ uID <$> subset ∧ mID r ∈ mID <$> subset.
Proof.
  unfold retained. intros (_ & _ & -> & ->)%MatrixBuilder_inv.
  destruct (dict_of_enumerate_bijection (uID <$> subset)) as (Hu & _).
  destruct (dict_of_enumerate_bijection (mID <$> subset)) as (Hm & _).
  by rewrite Hu, Hm.
Qed.

Lemma eval_set_retained (subset test_data : table) (b : built) :
  MatrixBuilder subset = Ok b →
  eval_set test_data (u_index b) (m_index b) = filter (retained b) test_data.
Proof.
  intros Hb. unfold eval_set. rewrite restrict_filter.
  apply list_filter_iff. intros r. rewrite (retained_iff subset) by done.
  destruct (MatrixBuilder_inv _ _ Hb) as (-> & -> & _).
  by rewrite !elem_of_unique.
Qed.

Lemma getitem_cell (a : matrix) (i j : nat) (p : R) :
  getitem a i j = Ok p ↔ cell a i j = Some p.
Proof.
  unfold getitem, cell. destruct (a !! i) as [r|]; simpl; [|done].
  destruct (r !! j); split; congruence.
Qed.

Lemma prediction_is_Some (subset : table) (b : built) (reconstructed : matrix)
    (r : row) :
  MatrixBuilder subset = Ok b →
  has_shape reconstructed (length (u_index b)) (length (m_index b)) →
  retained b r →
  ∃ i j p, u_map b !! uID r = Some i ∧ m_map b !! mID r = Some j ∧
    i < length (u_index b) ∧ j < length (m_index b) ∧
    cell reconstructed i j = Some p ∧ prediction reconstructed b r = Some p.
Proof.
  intros Hb Hshape [[i Hi] [j Hj]].
  destruct (MatrixBuilder_inv _ _ Hb) as (Hui & Hmi & Hum & Hmm).
  destruct (dict_of_enumerate_bijection (uID <$> subset)) as (_ & Hu & _).
  destruct (dict_of_enumerate_bijection (mID <$> subset)) as (_ & Hm & _).
  assert (i < length (u_index b)) as Hlti
    by (rewrite Hui; apply (Hu (uID r)); by rewrite <- Hum).
  assert (j < length (m_index b)) as Hltj
    by (rewrite Hmi; apply (Hm (mID r)); by rewrite <- Hmm).
  destruct (cell_is_Some _ _ _ i j Hshape Hlti Hltj) as [p Hp].
  exists i, j, p. unfold prediction. rewrite Hi, Hj. by simpl.
Qed.

Lemma collect_spec (reconstructed : matrix) (b : built) (rows : table)
    (preds actual predicted : list R) :
  Forall2 (λ r p, prediction reconstructed b r = Some p) rows preds →
  collect reconstructed (u_map b) (m_map b) rows actual predicted
  = Ok (actual ++ (rating <$> rows), predicted ++ preds).
Proof.
  intros Hall. revert actual predicted.
  induction Hall as [|r p rows preds Hp _ IH]; intros actual predicted; simpl.
  - by rewrite !app_nil_r.
  - unfold prediction in Hp. unfold dict_get.
    destruct (u_map b !! uID r) as [i|]; [simpl in *|done].
    destruct (m_map b !! mID r) as [j|]; [simpl in *|done].
    apply getitem_cell in Hp. rewrite Hp. simpl.
    by rewrite IH, <- !app_assoc.
Qed.

Lemma predictions_exist (subset : table) (b : built) (reconstructed : matrix)
    (rows : table) :
  MatrixBuilder subset = Ok b →
  has_shape reconstructed (length (u_index b)) (length (m_index b)) →
  Forall (retained b) rows →
  ∃ preds, Forall2 (λ r p, prediction reconstructed b r = Some p) rows preds.
Proof.
  intros Hb Hshape. induction 1 as [|r rows Hr _ [preds IH]].
  - by exists [].
  - destruct (prediction_is_Some _ _ _ _ Hb Hshape Hr)
      as (_ & _ & p & _ & _ & _ & _ & _ & Hp).
    exists (p :: preds). by constructor.
Qed.

(** ** The error metric *)

Lemma Rsum_nonneg (l : list R) : Forall (λ x, (0 <= x)%R) l → (0 <= Rsum l)%R.
Proof. induction 1 as [|x l Hx _ IH]; unfold Rsum in *; simpl; lra. Qed.

Lemma Rsum_eq_0 (l : list R) :
  Forall (λ x, (0 <= x)%R) l → Rsum l = 0%R ↔ Forall (λ x, x = 0%R) l.
Proof.
  induction 1 as [|x l Hx Hl IH].
  - split; [constructor | done].
  - pose proof (Rsum_nonneg l Hl). rewrite Forall_cons, <- IH.
    change (Rsum (x :: l)) with (x + Rsum l)%R.
    split; [intros; split; lra | intros [-> ->]; lra].
Qed.

Lemma square_error_nonneg (pairs : list (R * R)) :
  Forall (λ x, (0 <= x)%R) ((λ ap, ((ap.1 - ap.2) ^ 2)%R) <$> pairs).
Proof. apply Forall_fmap, Forall_true. intros [a p]. apply pow2_ge_0. Qed.

Lemma zip_with_fst_snd {A B C} (f : A → B → C) (l : list (A * B)) :
  zip_with f l.*1 l.*2 = (λ ap, f ap.1 ap.2) <$> l.
Proof. induction l as [|[a b] l IH]; csimpl; [done | by rewrite IH]. Qed.

Lemma score_rmse (pairs : list (R * R)) :
  pairs ≠ [] → score pairs.*1 pairs.*2 = Ok (rmse pairs).
Proof.
  intros Hne. unfold score, mean_squared_error.
  rewrite decide_False by (rewrite !length_fmap; tauto).
  rewrite decide_False by (rewrite length_fmap; by destruct pairs).
  unfold average, rmse. by rewrite zip_with_fst_snd, !length_fmap.
Qed.

Lemma rmse_nonneg (pairs : list (R * R)) : (0 <= rmse pairs)%R.
Proof. apply sqrt_pos. Qed.

Lemma rmse_eq_0 (pairs : list (R * R)) :
  pairs ≠ [] → rmse pairs = 0%R ↔ Forall (λ ap, ap.2 = ap.1) pairs.
Proof.
  intros Hne. unfold rmse.
  pose proof (square_error_nonneg pairs) as Hsq.
  pose proof (Rsum_nonneg _ Hsq) as Hsum.
  assert (0 < INR (length pairs))%R as Hn.
  { apply lt_0_INR. destruct pairs; [done | simpl; lia]. }
  set (s := Rsum _) in *. set (n := INR _) in *.
  assert (0 <= s / n)%R as Hmean.
  { unfold Rdiv. apply Rmult_le_pos; [done|].
    apply Rlt_le, Rinv_0_lt_compat, Hn. }
  assert (sqrt (s / n) = 0%R ↔ s = 0%R) as ->.
  { split.
    - intros H0. apply sqrt_eq_0 in H0; [|done].
      apply (Rmult_eq_compat_r n) in H0.
      unfold Rdiv in H0. rewrite Rmult_assoc, Rinv_l in H0; lra.
    - intros ->. unfold Rdiv. rewrite Rmult_0_l. apply sqrt_0. }
  subst s. rewrite Rsum_eq_0, Forall_fmap by done.
  apply Forall_iff. intros [a p]. simpl. split.
  - intros Hsq0. destruct (Req_dec p a) as [|Hne']; [done|].
    exfalso. apply (pow_nonzero (a - p) 2); [lra | done].
  - intros ->. unfold Rminus. rewrite Rplus_opp_r. apply Rmult_0_l.
Qed.

(** ** The Evaluator *)

Lemma Evaluator_retained_rows (subset test_data : table) (b : built)
    (reconstructed : matrix) :
  MatrixBuilder subset = Ok b →
  has_shape reconstructed (length (u_index b)) (length (m_index b)) →
  ∃ preds,
    Forall2 (λ r p, prediction reconstructed b r = Some p)
            (eval_set test_data (u_index b) (m_index b)) preds ∧
    Evaluator reconstructed b test_data
    = score (rating <$> eval_set test_data (u_index b) (m_index b)) preds.
Proof.
  intros Hb Hshape.
  destruct (predictions_exist subset b reconstructed
              (eval_set test_data (u_index b) (m_index b)) Hb Hshape)
    as [preds Hpreds].
  { rewrite (eval_set_retained subset) by done.
    apply Forall_forall. by intros r [Hr _]%list_elem_of_filter. }
  exists preds. split; [done|]. unfold Evaluator.
  by rewrite (collect_spec _ _ _ preds).
Qed.

(** C4: when no test row survives the membership filter, the Evaluator
    computes no RMSE: the call of [mean_squared_error] on the two empty
    lists raises the [ValueError] of sklearn's input validation (zero
    samples), so no division by zero takes place. *)
Theorem Evaluator_empty_eval_set (reconstructed : matrix) (b : built)
    (test_data : table) :
  eval_set test_data (u_index b) (m_index b) = [] →
  Evaluator reconstructed b test_data = Raise (ValueError ZeroSamples).
Proof. intros Hempty. unfold Evaluator. by rewrite Hempty. Qed.

(** C5: when at least one test row is retained, the Evaluator returns the
    square root of the mean of (actual - predicted)², taken over the
    retained rows in their order, where the predicted rating of a row is
    the entry of the reconstructed matrix at the positions that the two
    dicts give to the row's user id and movie id. *)
Theorem Evaluator_rmse (subset test_data : table) (b : built)
    (reconstructed : matrix) :
  MatrixBuilder subset = Ok b →
  has_shape reconstructed (length (u_index b)) (length (m_index b)) →
  eval_set test_data (u_index b) (m_index b) ≠ [] →
  ∃ preds,
    Forall2 (λ r p, prediction reconstructed b r = Some p)
            (eval_set test_data (u_index b) (m_index b)) preds ∧
    Evaluator reconstructed b test_data
    = Ok (rmse (zip (rating <$> eval_set test_data (u_index b) (m_index b))
                    preds)).
Proof.
  intros Hb Hshape Hne.
  destruct (Evaluator_retained_rows subset test_data b reconstructed Hb Hshape)
    as (preds & Hpreds & ->).
  exists preds. split; [done|].
  set (rows := eval_set _ _ _) in *.
  assert (length (rating <$> rows) = length preds) as Hlen
    by (rewrite length_fmap; by eapply Forall2_length).
  rewrite <- (fst_zip (rating <$> rows) preds) at 1 by lia.
  rewrite <- (snd_zip (rating <$> rows) preds) at 2 by lia.
  apply score_rmse.
  destruct rows, preds; simpl in *; done.
Qed.

(** C7: the evaluation set is the test table filtered, in order, to the
    rows whose user id and movie id are both keys of the dicts, which are
    the rows whose user id and movie id both occur in the sampled training
    subset; a test row with an id that does not occur there is dropped, and
    the Evaluator's result is the same as on the test table without it. *)
Theorem eval_set_cold_start (subset test_data : table) (b : built) :
  MatrixBuilder subset = Ok b →
  eval_set test_data (u_index b) (m_index b) = filter (retained b) test_data ∧
  (∀ r, retained b r ↔ uID r ∈ uID <$> subset ∧ mID r ∈ mID <$> subset) ∧
  (∀ reconstructed before r after,
     uID r ∉ uID <$> subset ∨ mID r ∉ mID <$> subset →
     (r ∉ eval_set (before ++ r :: after) (u_index b) (m_index b)) ∧
     eval_set (before ++ r :: after) (u_index b) (m_index b)
     = eval_set (before ++ after) (u_index b) (m_index b) ∧
     Evaluator reconstructed b (before ++ r :: after)
     = Evaluator reconstructed b (before ++ after)).
Proof.
  intros Hb. split; [by apply (eval_set_retained subset)|].
  split; [intros r; by apply retained_iff|].
  intros reconstructed before r after Habsent.
  assert (¬ retained b r) as Hr
    by (rewrite (retained_iff subset) by done; tauto).
  assert (eval_set (before ++ r :: after) (u_index b) (m_index b)
          = eval_set (before ++ after) (u_index b) (m_index b)) as Heq.
  { rewrite !(eval_set_retained subset) by done.
    by rewrite !filter_app, filter_cons_False. }
  split; [|split; [done|]].
  - rewrite (eval_set_retained subset) by done.
    rewrite list_elem_of_filter. tauto.
  - unfold Evaluator. by rewrite Heq.
Qed.

Lemma Evaluator_lookups_safe (subset test_data : table) (b : built)
    (reconstructed : matrix) :
  MatrixBuilder subset = Ok b →
  has_shape reconstructed (length (u_index b)) (length (m_index b)) →
  (∀ key, Evaluator reconstructed b test_data ≠ Raise (KeyError key)) ∧
  Evaluator reconstructed b test_data ≠ Raise IndexError.
Proof.
  intros Hb Hshape.
  destruct (Evaluator_retained_rows subset test_data b reconstructed
              Hb Hshape) as (preds & Hpreds & ->).
  unfold score, mean_squared_error.
  split; [intros key|]; repeat case_decide; done.
Qed.

(** C10: for every test row that the membership filter retains, the two
    dict lookups and the lookup in the reconstructed matrix succeed, with
    positions inside the matrix; the Evaluator therefore raises neither
    [KeyError] nor [IndexError]. *)
Theorem Evaluator_lookups_succeed (subset test_data : table) (b : built)
    (reconstructed : matrix) :
  MatrixBuilder subset = Ok b →
  has_shape reconstructed (length (u_index b)) (length (m_index b)) →
  (∀ r, r ∈ eval_set test_data (u_index b) (m_index b) →
     ∃ i j p, dict_get (u_map b) (uID r) = Ok i ∧
       dict_get (m_map b) (mID r) = Ok j ∧
       i < length reconstructed ∧
       Forall (λ line, j < length line) reconstructed ∧
       getitem reconstructed i j = Ok p) ∧
  (∀ key, Evaluator reconstructed b test_data ≠ Raise (KeyError key)) ∧
  Evaluator reconstructed b test_data ≠ Raise IndexError.
Proof.
  intros Hb Hshape. split.
  - intros r Hr. rewrite (eval_set_retained subset) in Hr by done.
    apply list_elem_of_filter in Hr as [Hr _].
    destruct (prediction_is_Some _ _ _ _ Hb Hshape Hr)
      as (i & j & p & Hi & Hj & Hlti & Hltj & Hp & _).
    exists i, j, p. unfold dict_get. rewrite Hi, Hj.
    destruct Hshape as [Hrows Hcols].
    repeat split; [lia | | by apply getitem_cell].
    eapply Forall_impl; [exact Hcols|]. simpl. intros; lia.
  - by apply (Evaluator_lookups_safe subset).
Qed.

(** ** The Sampler *)

Lemma take_positions_spec (s : list Z) (positions : list nat) :
  Forall (λ i, i < length s) positions →
  ∃ xs, take_positions s positions = Ok xs ∧
    Forall2 (λ i x, s !! i = Some x) positions xs.
Proof.
  unfold take_positions.
  induction 1 as [|i positions Hi _ (xs & IH & Hxs)]; simpl.
  - by exists [].
  - apply lookup_lt_is_Some_2 in Hi as [x Hx]. rewrite Hx, IH. simpl.
    exists (x :: xs). split; [done|]. by constructor.
Qed.

Lemma take_positions_NoDup (s xs : list Z) (positions : list nat) :
  NoDup s → NoDup positions →
  Forall2 (λ i x, s !! i = Some x) positions xs →
  NoDup xs ∧ ∀ x, x ∈ xs ↔ ∃ i, i ∈ positions ∧ s !! i = Some x.
Proof.
  intros Hs Hp Hall. induction Hall as [|i x positions xs Hx Hall IH].
  - split; [constructor|]. intros x. split; [by intros ?%elem_of_nil|].
    by intros (i & ?%elem_of_nil & _).
  - apply NoDup_cons in Hp as [Hi Hp]. destruct (IH Hp) as [Hnd Hel].
    split.
    + constructor; [|done]. rewrite Hel. intros (i' & Hi' & Hx').
      assert (i = i') as -> by exact (NoDup_lookup s i i' x Hs Hx Hx'). done.
    + intros y. rewrite elem_of_cons, Hel. split.
      * intros [->|(i' & Hi' & Hy)]; [exists i | exists i'];
          (split; [|done]); [left | by right].
      * intros (i' & [->|Hi']%elem_of_cons & Hy);
          [left; congruence | right; by exists i'].
Qed.

Section sampler_properties.
Context `{NumpyRandom}.

Lemma seeded_positions_spec (seed : Z) (a n : nat) :
  n ≤ a →
  NoDup (seeded_positions seed a n) ∧
  length (seeded_positions seed a n) = n ∧
  Forall (λ i, i < a) (seeded_positions seed a n).
Proof.
  intros Hn. unfold seeded_positions.
  pose proof (permutation_Permutation (RandomState seed) a) as Hperm.
  set (p := (permutation (RandomState seed) a).1) in *.
  assert (NoDup p) as Hnd by (rewrite Hperm; apply NoDup_seq).
  assert (length p = a) as Hlen by (by rewrite Hperm, length_seq).
  split; [|split].
  - apply (sublist_NoDup _ p); [done | apply sublist_take].
  - rewrite length_take. lia.
  - apply Forall_forall. intros i Hi%subseteq_take.
    rewrite Hperm in Hi. apply elem_of_seq in Hi. lia.
Qed.

Lemma sample_seeded (n : nat) (seed : Z) (s : list Z) (g : rng) :
  sample n (Some seed) s g = (seeded_sample n seed s, g).
Proof.
  unfold sample, seeded_RandomState, choice, seeded_sample, seeded_positions.
  repeat case_decide; try done. simpl. by destruct (permutation _ _).
Qed.

Lemma random_state_valid : valid_seed random_state.
Proof. unfold valid_seed, random_state. lia. Qed.

Lemma seeded_sample_invalid (n : nat) (seed : Z) (s : list Z) :
  ¬ valid_seed seed → seeded_sample n seed s = Raise (ValueError SeedOutOfRange).
Proof. intros Hseed. unfold seeded_sample. by rewrite decide_False. Qed.

Lemma seeded_sample_Ok (n : nat) (seed : Z) (s : list Z) :
  valid_seed seed → NoDup s → n ≤ length s →
  ∃ xs, seeded_sample n seed s = Ok xs ∧
    length xs = n ∧ NoDup xs ∧
    ∀ x, x ∈ xs ↔
         ∃ i, i ∈ seeded_positions seed (length s) n ∧ s !! i = Some x.
Proof.
  intros Hseed Hs Hn. unfold seeded_sample. rewrite decide_True by done.
  destruct (seeded_positions_spec seed (length s) n Hn)
    as (Hnd & Hlen & Hlt).
  destruct (take_positions_spec s _ Hlt) as (xs & Hxs & Hall).
  destruct (take_positions_NoDup s xs _ Hs Hnd Hall) as [Hndx Hel].
  exists xs. rewrite Hxs.
  rewrite decide_False by (destruct s; simpl in *; lia).
  rewrite decide_False by lia.
  split; [done|]. split; [|done].
  apply Forall2_length in Hall. lia.
Qed.

Lemma seeded_sample_Raise (n : nat) (seed : Z) (s : list Z) :
  valid_seed seed → length s < n →
  seeded_sample n seed s =
  Raise (ValueError (if decide (length s = 0) then EmptyPopulation
                     else LargerSampleThanPopulation)).
Proof.
  intros Hseed Hn. unfold seeded_sample. repeat case_decide; try done; lia.
Qed.
End sampler_properties.

Section sampler_theorems.
Context `{NumpyRandom}.

Lemma Sampler_seeded (nu nm : nat) (seed : Z) (train_data : table)
    (g : rng) :
  Sampler nu nm seed train_data g =
  (users ← seeded_sample nu seed (unique (uID <$> train_data));
   movies ← seeded_sample nm seed (unique (mID <$> train_data));
   Ok (users, movies, restrict train_data users movies), g).
Proof.
  unfold Sampler, selected_users, selected_movies, drop_duplicates.
  rewrite !sample_seeded.
  destruct (seeded_sample nu _ _); simpl; [|done].
  by destruct (seeded_sample nm _ _).
Qed.

Lemma Sampler_Ok (nu nm : nat) (seed : Z) (train_data : table) (g : rng)
    (users movies : list Z) (subset : table) :
  (Sampler nu nm seed train_data g).1 = Ok (users, movies, subset) →
  (length users = nu ∧ NoDup users ∧
   ∀ x, x ∈ users ↔
        ∃ i, i ∈ seeded_positions seed
                   (length (unique (uID <$> train_data))) nu ∧
             unique (uID <$> train_data) !! i = Some x) ∧
  (length movies = nm ∧ NoDup movies ∧
   ∀ x, x ∈ movies ↔
        ∃ i, i ∈ seeded_positions seed
                   (length (unique (mID <$> train_data))) nm ∧
             unique (mID <$> train_data) !! i = Some x) ∧
  subset = restrict train_data users movies.
Proof.
  rewrite Sampler_seeded. cbn [fst].
  destruct (decide (valid_seed seed)) as [Hseed|Hseed];
    [|rewrite (seeded_sample_invalid nu seed (unique (uID <$> train_data)))
        by done; done].
  destruct (decide (nu ≤ length (unique (uID <$> train_data)))) as [Hu|Hu];
    [|rewrite (seeded_sample_Raise nu seed (unique (uID <$> train_data)))
        by (done || lia); done].
  destruct (seeded_sample_Ok nu seed _ Hseed (NoDup_unique _) Hu)
    as (us & -> & Hus). simpl.
  destruct (decide (nm ≤ length (unique (mID <$> train_data)))) as [Hm|Hm];
    [|rewrite (seeded_sample_Raise nm seed (unique (mID <$> train_data)))
        by (done || lia); done].
  destruct (seeded_sample_Ok nm seed _ Hseed (NoDup_unique _) Hm)
    as (ms & -> & Hms). simpl.
  intros [= <- <- <-]. done.
Qed.

(** C3: when the training table has fewer than 500 distinct user ids or
    fewer than 500 distinct movie ids, the Sampler returns no sample, of
    any size: it raises the [ValueError] of numpy's [choice] (a sample
    larger than the population, or an empty population for an empty
    table). *)
Theorem Sampler_insufficient_data (train_data : table) (g : rng) :
  length (unique (uID <$> train_data)) < n_users ∨
  length (unique (mID <$> train_data)) < n_movies →
  (Sampler n_users n_movies random_state train_data g).1
  = Raise (ValueError (if decide (train_data = []) then EmptyPopulation
                       else LargerSampleThanPopulation)).
Proof.
  intros Hfew. rewrite Sampler_seeded. cbn [fst].
  destruct (decide (length (unique (uID <$> train_data)) < n_users))
    as [Hu|Hu].
  - rewrite (seeded_sample_Raise n_users random_state
               (unique (uID <$> train_data)))
      by (done || apply random_state_valid).
    simpl. do 2 f_equal.
    destruct train_data; done.
  - destruct (seeded_sample_Ok n_users random_state _ random_state_valid
                (NoDup_unique (uID <$> train_data)))
      as (us & -> & _); [lia|]. simpl.
    rewrite (seeded_sample_Raise n_movies random_state
               (unique (mID <$> train_data)))
      by (apply random_state_valid || (destruct Hfew; [done | lia])).
    simpl. do 2 f_equal.
    destruct train_data; [|done]. simpl in Hu. unfold n_users in Hu. lia.
Qed.

(** A sample that the Sampler returns is never shorter than requested. *)
Lemma Sampler_sample_sizes (nu nm : nat) (seed : Z) (train_data : table)
    (g : rng) (users movies : list Z) (subset : table) :
  (Sampler nu nm seed train_data g).1 = Ok (users, movies, subset) →
  length users = nu ∧ NoDup users ∧ length movies = nm ∧ NoDup movies.
Proof.
  intros Hok.
  apply Sampler_Ok in Hok as ((? & ? & _) & (? & ? & _) & _). done.
Qed.
End sampler_theorems.

(** ** The dimensions of the matrix *)

Lemma cold_users_uID : unique (uID <$> cold_users) = Z.of_nat <$> seq 0 502.
Proof. vm_compute. reflexivity. Qed.

Lemma cold_users_mID : unique (mID <$> cold_users) = Z.of_nat <$> seq 0 502.
Proof. vm_compute. reflexivity. Qed.

Lemma cold_users_single_movie (r : row) (i : nat) :
  r ∈ cold_users → uID r = Z.of_nat i → 1 ≤ i →
  mID r = Z.of_nat (next_movie i).
Proof.
  unfold cold_users. rewrite elem_of_app, !list_elem_of_fmap.
  intros [(j & -> & _) | (i' & -> & _)]; simpl; intros Hi Hle.
  - lia.
  - by apply Nat2Z.inj in Hi as ->.
Qed.

(** Among 500 distinct positions below 502, one position [i >= 1] has its
    successor [next_movie i] left out: the positions from 1 to 501 form a
    single cycle under [next_movie], and the 500 positions cannot contain
    the whole cycle. *)
Lemma exists_cold_position (P : list nat) :
  NoDup P → length P = 500 → Forall (λ i, i < 502) P →
  ∃ i, i ∈ P ∧ 1 ≤ i ∧ next_movie i ∉ P.
Proof.
  intros Hnd Hlen Hlt.
  destruct (decide (Exists (λ i, 1 ≤ i ∧ next_movie i ∉ P) P)) as [Hex|Hno].
  { apply Exists_exists in Hex as (i & Hi & Hle & Hnext). by exists i. }
  exfalso. apply not_Exists_Forall in Hno; [|apply _].
  assert (∀ i, i ∈ P → 1 ≤ i → next_movie i ∈ P) as Hclosed.
  { intros i Hi Hle. rewrite Forall_forall in Hno.
    destruct (decide (next_movie i ∈ P)) as [|Hout]; [done|].
    by destruct (Hno i Hi). }
  rewrite Forall_forall in Hlt.
  assert (∃ i0, i0 ∈ P ∧ 1 ≤ i0) as (i0 & Hi0 & Hle0).
  { destruct P as [|a [|b P']]; [discriminate | discriminate |].
    apply NoDup_cons in Hnd as [Hab _]. apply not_elem_of_cons in Hab as [Hab _].
    destruct (decide (a = 0)) as [->|];
      [exists b | exists a]; (split; [|lia]).
    - right. left.
    - left. }
  assert (∀ k, i0 + k ≤ 501 → i0 + k ∈ P) as Hup.
  { induction k as [|k IH]; intros Hk.
    - by rewrite Nat.add_0_r.
    - assert (i0 + k ∈ P) as Hin by (apply IH; lia).
      apply Hclosed in Hin; [|lia].
      unfold next_movie in Hin. rewrite decide_False in Hin by lia.
      by rewrite Nat.add_succ_r. }
  assert (1 ∈ P) as H1.
  { assert (501 ∈ P) as Hlast.
    { pose proof (Hlt i0 Hi0).
      replace 501 with (i0 + (501 - i0)) by lia. apply Hup. lia. }
    apply Hclosed in Hlast; [|lia]. done. }
  assert (∀ k, 1 + k ≤ 501 → 1 + k ∈ P) as Hall.
  { induction k as [|k IH]; intros Hk; [done|].
    assert (1 + k ∈ P) as Hin by (apply IH; lia).
    apply Hclosed in Hin; [|lia].
    unfold next_movie in Hin. rewrite decide_False in Hin by lia.
    by rewrite Nat.add_succ_r. }
  assert (seq 1 501 ⊆+ P) as Hsub.
  { apply NoDup_submseteq; [apply NoDup_seq|].
    intros x Hx%elem_of_seq.
    replace x with (1 + (x - 1)) by lia. apply Hall. lia. }
  apply submseteq_length in Hsub. rewrite length_seq in Hsub. lia.
Qed.

Lemma restrict_transpose (data : table) (us ms : list Z) :
  restrict (transpose <$> data) ms us = transpose <$> restrict data us ms.
Proof.
  unfold restrict. induction data as [|r data IH]; [done|].
  rewrite fmap_cons, !filter_cons, IH. simpl.
  destruct (isin (uID r) us), (isin (mID r) ms); simpl;
    repeat case_decide; done || tauto.
Qed.

Lemma uID_transpose (data : table) : uID <$> (transpose <$> data) = mID <$> data.
Proof. rewrite <- list_fmap_compose. by apply list_fmap_ext. Qed.

Lemma mID_transpose (data : table) : mID <$> (transpose <$> data) = uID <$> data.
Proof. rewrite <- list_fmap_compose. by apply list_fmap_ext. Qed.

Section dimensions.
Context `{NumpyRandom}.

Lemma Sampler_transpose (n : nat) (seed : Z) (data : table) (g : rng)
    (users movies : list Z) (subset : table) :
  (Sampler n n seed data g).1 = Ok (users, movies, subset) →
  (Sampler n n seed (transpose <$> data) g).1
  = Ok (movies, users, transpose <$> subset).
Proof.
  rewrite !Sampler_seeded. cbn [fst]. rewrite uID_transpose, mID_transpose.
  destruct (seeded_sample n seed (unique (uID <$> data))) as [us|];
    [|done].
  destruct (seeded_sample n seed (unique (mID <$> data))) as [ms|];
    [|done].
  simpl. intros [= <- <- <-]. by rewrite restrict_transpose.
Qed.

(** The subset has no more distinct ids than were sampled. *)
Lemma subset_distinct_le (data : table) (users movies : list Z) :
  length (unique (uID <$> restrict data users movies)) ≤ length users ∧
  length (unique (mID <$> restrict data users movies)) ≤ length movies.
Proof.
  split; apply submseteq_length, NoDup_submseteq; try apply NoDup_unique;
    intros x Hx%elem_of_unique%list_elem_of_fmap;
    destruct Hx as (r & -> & Hr); rewrite restrict_filter in Hr;
    apply list_elem_of_filter in Hr as [[Hu Hm] _]; done.
Qed.

Lemma Sampler_cold_users (g : rng) :
  ∃ users movies subset,
    (Sampler n_users n_movies random_state cold_users g).1
    = Ok (users, movies, subset) ∧
    length (unique (uID <$> subset)) < 500.
Proof.
  rewrite Sampler_seeded. cbn [fst].
  rewrite cold_users_uID, cold_users_mID.
  assert (NoDup (Z.of_nat <$> seq 0 502)) as Hnd
    by (apply (NoDup_fmap_2 _), NoDup_seq).
  assert (length (Z.of_nat <$> seq 0 502) = 502) as Hlen
    by (by rewrite length_fmap, length_seq).
  assert (n_users ≤ length (Z.of_nat <$> seq 0 502)) as Hle
    by (rewrite Hlen; unfold n_users; lia).
  destruct (seeded_sample_Ok n_users random_state _ random_state_valid
              Hnd Hle)
    as (users & Husers & Hulen & Hund & Huel).
  change n_movies with n_users. rewrite Husers. simpl.
  rewrite Hlen in Huel.
  exists users, users, (restrict cold_users users users).
  split; [done|].
  destruct (seeded_positions_spec random_state 502 n_users)
    as (HPnd & HPlen & HPlt); [unfold n_users; lia|].
  destruct (exists_cold_position _ HPnd HPlen HPlt)
    as (i & Hi & Hle1 & Hnext).
  assert (Z.of_nat i ∈ users) as Hin.
  { apply Huel. exists i. split; [done|].
    rewrite list_lookup_fmap, lookup_seq_lt; [done|].
    rewrite Forall_forall in HPlt. by apply HPlt. }
  assert (Z.of_nat i ∉ unique (uID <$> restrict cold_users users users))
    as Hout.
  { rewrite elem_of_unique, list_elem_of_fmap. intros (r & Hr & Hrin).
    rewrite restrict_filter in Hrin.
    apply list_elem_of_filter in Hrin as [[_ Hm] Hrin].
    rewrite (cold_users_single_movie r i) in Hm by done.
    apply Huel in Hm as (i' & Hi' & Hlook).
    rewrite list_lookup_fmap in Hlook.
    destruct (seq 0 502 !! i') as [k|] eqn:Hk; [|done].
    apply lookup_seq in Hk as [-> _]. simpl in Hlook.
    injection Hlook as Heq%Nat2Z.inj. by rewrite <- Heq in Hnext. }
  assert (Z.of_nat i :: unique (uID <$> restrict cold_users users users)
          ⊆+ users) as Hsub.
  { apply NoDup_submseteq.
    - constructor; [done | apply NoDup_unique].
    - intros x [->|Hx]%elem_of_cons; [done|].
      apply elem_of_unique, list_elem_of_fmap in Hx as (r & -> & Hr).
      rewrite restrict_filter in Hr.
      by apply list_elem_of_filter in Hr as [[Hu _] _]. }
  apply submseteq_length in Hsub. simpl in Hsub.
  unfold n_users in Hulen. lia.
Qed.
Lemma Sampler_cold_movies (g : rng) :
  ∃ users movies subset,
    (Sampler n_users n_movies random_state cold_movies g).1
    = Ok (users, movies, subset) ∧
    length (unique (mID <$> subset)) < 500.
Proof.
  destruct (Sampler_cold_users g) as (users & movies & subset & Hok & Hlt).
  exists movies, users, (transpose <$> subset). split.
  - by apply Sampler_transpose in Hok.
  - by rewrite mID_transpose.
Qed.

(** C9: the rating matrix has one row per distinct user id and one
    column per distinct movie id of the filtered training subset; these
    counts are at most the 500 sampled ids, and each of them can be
    strictly smaller: whatever the generator, on the table [cold_users]
    some sampled user keeps no rating and the matrix has fewer than 500
    rows, and on the table [cold_movies] it has fewer than 500 columns. *)
Theorem matrix_dimensions :
  (∀ train_data g users movies subset,
     (Sampler n_users n_movies random_state train_data g).1
     = Ok (users, movies, subset) →
     ∃ b U M, MatrixBuilder subset = Ok b ∧
       U = length (unique (uID <$> subset)) ∧
       M = length (unique (mID <$> subset)) ∧
       has_shape (ratings b) U M ∧
       U ≤ length users ∧ length users = 500 ∧
       M ≤ length movies ∧ length movies = 500) ∧
  (∃ train_data, ∀ g, ∃ users movies subset b U M,
     (Sampler n_users n_movies random_state train_data g).1
     = Ok (users, movies, subset) ∧
     MatrixBuilder subset = Ok b ∧ has_shape (ratings b) U M ∧ U < 500) ∧
  (∃ train_data, ∀ g, ∃ users movies subset b U M,
     (Sampler n_users n_movies random_state train_data g).1
     = Ok (users, movies, subset) ∧
     MatrixBuilder subset = Ok b ∧ has_shape (ratings b) U M ∧ M < 500).
Proof.
  split; [|split].
  - intros train_data g users movies subset Hok.
    apply Sampler_Ok in Hok as ((Hu & _) & (Hm & _) & ->).
    destruct (MatrixBuilder_spec (restrict train_data users movies))
      as (a & Hb & Ha & _).
    destruct (subset_distinct_le train_data users movies) as [HU HM].
    eexists _, _, _. split; [exact Hb|]. simpl.
    repeat split; try done; apply Ha.
  - exists cold_users. intros g.
    destruct (Sampler_cold_users g) as (users & movies & subset & Hok & Hlt).
    destruct (MatrixBuilder_spec subset) as (a & Hb & Ha & _).
    eexists users, movies, subset, _, _, _.
    split; [done|]. split; [exact Hb|]. split; [exact Ha|]. done.
  - exists cold_movies. intros g.
    destruct (Sampler_cold_movies g) as (users & movies & subset & Hok & Hlt).
    destruct (MatrixBuilder_spec subset) as (a & Hb & Ha & _).
    eexists users, movies, subset, _, _, _.
    split; [done|]. split; [exact Hb|]. split; [exact Ha|]. done.
Qed.
End dimensions.

(** ** The whole cell *)

Lemma length_vecmat (w : list R) (Hm : matrix) (M : nat) :
  Forall (λ h, length h = M) Hm → length (vecmat w Hm M) = M.
Proof.
  intros Hall. unfold vecmat.
  assert (Forall (λ h, length h = M)
            (zip_with (λ a h, map (Rmult a) h) w Hm)) as Hscaled.
  { revert w. induction Hall as [|h Hm Hh _ IH]; intros [|a w]; simpl;
      constructor; [by rewrite length_map | apply IH]. }
  induction Hscaled as [|h scaled Hh _ IH]; simpl.
  - apply length_replicate.
  - rewrite length_zip_with, IH, Hh. lia.
Qed.

Lemma dot_shape (W Hm : matrix) (U K M : nat) :
  0 < K → has_shape W U K → has_shape Hm K M → has_shape (dot W Hm) U M.
Proof.
  intros HK [HU _] [HKlen Hcols]. unfold dot. split.
  - by rewrite length_map.
  - apply Forall_fmap, Forall_true. intros w. simpl.
    destruct Hm as [|h Hm]; [simpl in HKlen; lia|]. simpl.
    pose proof (Forall_inv Hcols) as Hh. simpl in Hh. rewrite Hh.
    by apply length_vecmat.
Qed.

Section notebook_properties.
Context `{NumpyRandom} `{NMFSolver}.

(** The reconstructed matrix has the shape of the rating matrix. *)
Lemma reconstruct_shape (a reconstructed : matrix) (U M : nat) :
  has_shape a U M → reconstruct a = Ok reconstructed →
  has_shape reconstructed U M.
Proof.
  intros Ha. unfold reconstruct.
  destruct (fit_transform _ _ _ a) as [[W Hm]|] eqn:Hfit; [|done].
  simpl. intros [= <-].
  destruct (fit_transform_shape _ _ _ _ _ _ _ _ Ha Hfit) as [HW HHm].
  eapply dot_shape; [|done..]. unfold n_components. lia.
Qed.

Lemma seeded_sample_raises (n : nat) (seed : Z) (s : list Z) (e : exn) :
  seeded_sample n seed s = Raise e → ∃ why, e = ValueError why.
Proof.
  unfold seeded_sample. repeat case_decide; try (intros [= <-]; by eexists).
  all: try lia.
  destruct (seeded_positions_spec seed (length s) n) as (_ & _ & Hlt);
    [lia|].
  destruct (take_positions_spec s _ Hlt) as (xs & -> & _). done.
Qed.

(** X1: on every input the cell either returns a score or stops with a
    [ValueError]: no dict lookup and no array access of the cell fails
    (for a generator that shuffles and a solver that raises nothing but
    [ValueError], as the two interfaces require). *)
Theorem notebook_raises_only_ValueError (train_data test_data : table)
    (g : rng) (e : exn) :
  (notebook train_data test_data g).1 = Raise e → ∃ why, e = ValueError why.
Proof.
  unfold notebook. rewrite Sampler_seeded. cbn [fst].
  destruct (seeded_sample n_users _ _) as [users|e1] eqn:Hu;
    [|intros [= <-]; by eapply seeded_sample_raises].
  simpl. destruct (seeded_sample n_movies _ _) as [movies|e2] eqn:Hm;
    [|intros [= <-]; by eapply seeded_sample_raises].
  simpl. set (subset := restrict train_data users movies).
  destruct (MatrixBuilder_spec subset) as (a & Hb & Ha & _).
  rewrite Hb. simpl.
  destruct (reconstruct a) as [reconstructed|e3] eqn:Hrec; simpl.
  - intros He.
    pose proof (reconstruct_shape _ _ _ _ Ha Hrec) as Hshape.
    destruct (Evaluator_lookups_safe subset test_data _ reconstructed
                Hb Hshape) as [Hkey Hindex].
    destruct e as [why|key|]; [by eexists | by destruct (Hkey key) | done].
  - intros [= <-]. unfold reconstruct in Hrec.
    destruct (fit_transform _ _ _ a) as [WH|e4] eqn:Hfit; [done|].
    simpl in Hrec. injection Hrec as <-.
    by eapply fit_transform_raises.
Qed.
End notebook_properties.

(** ** Examples *)

(** The later of the two ratings of user 7 for movie 3 is kept. *)
Example MatrixBuilder_small : MatrixBuilder small_subset = Ok small_built.
Proof. reflexivity. Qed.

Example eval_set_small :
  eval_set small_test (u_index small_built) (m_index small_built)
  = [Row 7 3 4; Row 8 3 2].
Proof. reflexivity. Qed.

(** With [counter_random], the draw of 2 out of 3 distinct users. *)
Example selected_users_small :
  (selected_users (H:=counter_random) 2 random_state
     [Row 7 3 5; Row 8 3 2; Row 7 4 1; Row 9 3 1] 0%nat).1
  = Ok [7; 8]%Z.
Proof. reflexivity. Qed.

(** With [random_state=None] the draw follows the global generator. *)
Example sample_unseeded :
  (sample (H:=counter_random) 2 None [7; 8; 9]%Z 1%nat).1 = Ok [8; 9]%Z ∧
  (sample (H:=counter_random) 2 None [7; 8; 9]%Z 2%nat).1 = Ok [9; 7]%Z.
Proof. split; reflexivity. Qed.

Example notebook_small :
  (notebook (H:=counter_random) (H0:=zero_solver)
     small_subset small_test 0%nat).1
  = Raise (ValueError LargerSampleThanPopulation).
Proof. reflexivity. Qed.

(** ** Instances of the theorems *)

Lemma Sampler_insufficient_data_witness :
  (length (unique (uID <$> small_subset)) < n_users ∨
   length (unique (mID <$> small_subset)) < n_movies) ∧
  (Sampler (H:=counter_random) n_users n_movies random_state
     small_subset 0%nat).1
  = Raise (ValueError LargerSampleThanPopulation).
Proof.
  assert (length (unique (uID <$> small_subset)) < n_users) as Hfew
    by (vm_compute; lia).
  split; [by left|].
  apply (Sampler_insufficient_data (H:=counter_random) small_subset 0%nat).
  by left.
Defined.

Lemma Evaluator_empty_eval_set_witness :
  eval_set [Row 9 3 4] (u_index small_built) (m_index small_built) = [] ∧
  Evaluator [[1%R]; [2%R]] small_built [Row 9 3 4]
  = Raise (ValueError ZeroSamples).
Proof.
  split; [reflexivity|].
  apply (Evaluator_empty_eval_set [[1%R]; [2%R]] small_built [Row 9 3 4]).
  reflexivity.
Defined.

Lemma small_shape :
  has_shape [[1%R]; [4%R]] (length (u_index small_built))
            (length (m_index small_built)).
Proof. split; [reflexivity | repeat constructor]. Defined.

Lemma small_eval_set_nonempty :
  eval_set small_test (u_index small_built) (m_index small_built) ≠ [].
Proof. rewrite eval_set_small. discriminate. Defined.

Lemma Evaluator_rmse_witness :
  MatrixBuilder small_subset = Ok small_built ∧
  has_shape [[1%R]; [4%R]] (length (u_index small_built))
            (length (m_index small_built)) ∧
  eval_set small_test (u_index small_built) (m_index small_built) ≠ [] ∧
  ∃ preds,
    Forall2 (λ r p, prediction [[1%R]; [4%R]] small_built r = Some p)
            (eval_set small_test (u_index small_built) (m_index small_built))
            preds ∧
    Evaluator [[1%R]; [4%R]] small_built small_test
    = Ok (rmse (zip (rating <$> eval_set small_test (u_index small_built)
                                         (m_index small_built)) preds)).
Proof.
  split; [reflexivity|]. split; [exact small_shape|].
  split; [exact small_eval_set_nonempty|].
  exact (Evaluator_rmse small_subset small_test small_built [[1%R]; [4%R]]
           eq_refl small_shape small_eval_set_nonempty).
Defined.

Lemma eval_set_cold_start_witness :
  MatrixBuilder small_subset = Ok small_built ∧
  eval_set small_test (u_index small_built) (m_index small_built)
  = filter (retained small_built) small_test ∧
  (∀ r, retained small_built r ↔
        uID r ∈ uID <$> small_subset ∧ mID r ∈ mID <$> small_subset) ∧
  (∀ reconstructed before r after,
     uID r ∉ uID <$> small_subset ∨ mID r ∉ mID <$> small_subset →
     (r ∉ eval_set (before ++ r :: after) (u_index small_built)
            (m_index small_built)) ∧
     eval_set (before ++ r :: after) (u_index small_built)
       (m_index small_built)
     = eval_set (before ++ after) (u_index small_built) (m_index small_built) ∧
     Evaluator reconstructed small_built (before ++ r :: after)
     = Evaluator reconstructed small_built (before ++ after)).
Proof.
  split; [reflexivity|].
  exact (eval_set_cold_start small_subset small_test small_built eq_refl).
Defined.

Lemma Evaluator_lookups_succeed_witness :
  MatrixBuilder small_subset = Ok small_built ∧
  has_shape [[1%R]; [4%R]] (length (u_index small_built))
            (length (m_index small_built)) ∧
  (∀ r, r ∈ eval_set small_test (u_index small_built) (m_index small_built) →
     ∃ i j p, dict_get (u_map small_built) (uID r) = Ok i ∧
       dict_get (m_map small_built) (mID r) = Ok j ∧
       i < length [[1%R]; [4%R]] ∧
       Forall (λ line, j < length line) [[1%R]; [4%R]] ∧
       getitem [[1%R]; [4%R]] i j = Ok p) ∧
  (∀ key, Evaluator [[1%R]; [4%R]] small_built small_test
          ≠ Raise (KeyError key)) ∧
  Evaluator [[1%R]; [4%R]] small_built small_test ≠ Raise IndexError.
Proof.
  split; [reflexivity|]. split; [exact small_shape|].
  exact (Evaluator_lookups_succeed small_subset small_test small_built
           [[1%R]; [4%R]] eq_refl small_shape).
Defined.

(** * Further properties of the cell *)

(** ** First-seen order of the ids (lines 59-63) *)

Lemma filter_all {A} (P : A → Prop) `{!∀ x, Decision (P x)} (l : list A) :
  (∀ x, x ∈ l → P x) → filter P l = l.
Proof.
  induction l as [|x l IH]; intros Hl; [done|].
  rewrite filter_cons_True by (apply Hl; left).
  f_equal. apply IH. intros y Hy. apply Hl. by right.
Qed.

Lemma filter_ext_in {A} (P Q : A → Prop)
    `{!∀ x, Decision (P x), !∀ x, Decision (Q x)} (l : list A) :
  (∀ x, x ∈ l → P x ↔ Q x) → filter P l = filter Q l.
Proof.
  induction l as [|x l IH]; intros Hl; [done|].
  assert (filter P l = filter Q l) as Htl
    by (apply IH; intros y Hy; apply Hl; by right).
  destruct (decide (P x)) as [HP|HP].
  - rewrite !filter_cons_True; [by rewrite Htl | | done].
    apply Hl; [left | done].
  - rewrite !filter_cons_False; [done | | done].
    intros HQ. apply HP, Hl; [left | done].
Qed.

(** The distinct values of a longer series start with the distinct values
    of the series. *)
Lemma unique_app (s1 s2 : list Z) :
  unique (s1 ++ s2) = unique s1 ++ filter (λ y, y ∉ s1) (unique s2).
Proof.
  induction s1 as [|x s1 IH]; simpl.
  - symmetry. apply filter_all. intros y _. apply not_elem_of_nil.
  - f_equal. rewrite IH, filter_app. f_equal.
    rewrite list_filter_filter. apply list_filter_iff.
    intros y. rewrite not_elem_of_cons. tauto.
Qed.

Lemma dict_of_enumerate_app (l k : list Z) :
  NoDup (l ++ k) → dict_of_enumerate l ⊆ dict_of_enumerate (l ++ k).
Proof.
  intros Hnd. apply map_subseteq_spec. intros u i Hu.
  apply dict_of_enumerate_lookup in Hu; [|by apply NoDup_app in Hnd as [? _]].
  apply dict_of_enumerate_lookup; [done|]. by apply lookup_app_l_Some.
Qed.

Lemma unique_app_dict (s1 s2 : list Z) :
  unique s1 `prefix_of` unique (s1 ++ s2) ∧
  dict_of_enumerate (unique s1) ⊆ dict_of_enumerate (unique (s1 ++ s2)).
Proof.
  pose proof (NoDup_unique (s1 ++ s2)) as Hnd. rewrite unique_app in *.
  split; [by eexists | by apply dict_of_enumerate_app].
Qed.

(** X5: appending rows to the training subset moves no id that already
    has a position (ids are numbered in order of first appearance), and
    changes only the cells that the new rows write. *)
Theorem MatrixBuilder_append_stable (subset more : table) :
  ∃ b b', MatrixBuilder subset = Ok b ∧
    MatrixBuilder (subset ++ more) = Ok b' ∧
    u_index b `prefix_of` u_index b' ∧ m_index b `prefix_of` m_index b' ∧
    u_map b ⊆ u_map b' ∧ m_map b ⊆ m_map b' ∧
    ∀ i j, i < length (u_index b) → j < length (m_index b) →
      (∀ r, r ∈ more → ¬ writes (u_map b') (m_map b') i j r) →
      cell (ratings b') i j = cell (ratings b) i j.
Proof.
  destruct (MatrixBuilder_spec subset) as (a & Hb & Ha & Hcell).
  destruct (MatrixBuilder_spec (subset ++ more)) as (a' & Hb' & Ha' & Hcell').
  eexists _, _. split; [exact Hb|]. split; [exact Hb'|]. simpl.
  rewrite !fmap_app in *.
  destruct (unique_app_dict (uID <$> subset) (uID <$> more)) as [Hup Hum].
  destruct (unique_app_dict (mID <$> subset) (mID <$> more)) as [Hmp Hmm].
  do 4 (split; [done|]).
  intros i j Hi Hj Hmore. rewrite Hcell', Hcell, filter_app.
  rewrite (filter_none _ more) by done. rewrite app_nil_r.
  destruct (dict_of_enumerate_bijection (uID <$> subset)) as (Hu1 & _).
  destruct (dict_of_enumerate_bijection (mID <$> subset)) as (Hm1 & _).
  rewrite (filter_ext_in _
             (writes (dict_of_enumerate (unique (uID <$> subset)))
                     (dict_of_enumerate (unique (mID <$> subset))) i j)).
  - destruct (last _); [done|].
    rewrite !cell_zeros; [done | done | done | |].
    + apply prefix_length in Hup. lia.
    + apply prefix_length in Hmp. lia.
  - intros r Hr. unfold writes.
    destruct (proj1 (Hu1 (uID r))) as [i0 Hi0]; [by apply list_elem_of_fmap_2|].
    destruct (proj1 (Hm1 (mID r))) as [j0 Hj0]; [by apply list_elem_of_fmap_2|].
    rewrite Hi0, Hj0.
    rewrite (lookup_weaken _ _ _ _ Hi0 Hum), (lookup_weaken _ _ _ _ Hj0 Hmm).
    done.
Qed.

(** ** What the matrix holds (lines 65-67) *)

(** X6: every cell of the rating matrix is 0 or the rating of a subset
    row written to it; with ratings that are not negative, no cell is. *)
Theorem matrix_cells_from_ratings (subset : table) :
  ∃ b, MatrixBuilder subset = Ok b ∧
    (∀ i j v, cell (ratings b) i j = Some v →
       v = 0%R ∨ ∃ r, r ∈ subset ∧ writes (u_map b) (m_map b) i j r ∧
                      v = rating r) ∧
    ((∀ r, r ∈ subset → (0 <= rating r)%R) →
     ∀ i j v, cell (ratings b) i j = Some v → (0 <= v)%R).
Proof.
  destruct (MatrixBuilder_spec subset) as (a & Hb & Ha & Hcell).
  eexists. split; [exact Hb|]. simpl.
  assert (∀ i j v, cell a i j = Some v →
            v = 0%R ∨
            ∃ r, r ∈ subset ∧
              writes (dict_of_enumerate (unique (uID <$> subset)))
                     (dict_of_enumerate (unique (mID <$> subset))) i j r ∧
              v = rating r) as Hcases.
  { intros i j v Hv. rewrite Hcell in Hv.
    destruct (last _) as [r|] eqn:Hlast.
    - right. exists r. apply last_Some_elem_of, list_elem_of_filter in Hlast.
      destruct Hlast as [Hw Hr]. repeat split; [done | apply Hw.. | congruence].
    - left. destruct Ha as [HU _]. unfold cell, zeros in Hv.
      destruct (replicate _ _ !! i) as [line|] eqn:Hline; [|done].
      apply lookup_replicate in Hline as [-> _]. simpl in Hv.
      apply lookup_replicate in Hv as [-> _]. done. }
  split; [done|].
  intros Hpos i j v Hv.
  destruct (Hcases i j v Hv) as [->|(r & Hr & _ & ->)]; [lra | by apply Hpos].
Qed.

(** ** Reading the matrix back (lines 65-81) *)

(** Read through the two dicts, the rating matrix returns for a row with
    known ids the last training rating of its pair, and 0 when the pair
    has no training row. *)
Lemma prediction_of_ratings_default (subset : table) (b : built) (r : row) :
  MatrixBuilder subset = Ok b → retained b r →
  prediction (ratings b) b r
  = Some (default 0%R (last_rating (uID r) (mID r) subset)).
Proof.
  intros Hb [[i Hi] [j Hj]].
  destruct (MatrixBuilder_spec subset) as (a & Hb' & Ha & Hcell).
  rewrite Hb' in Hb. injection Hb as <-. simpl in *.
  unfold prediction. simpl. rewrite Hi, Hj. simpl. rewrite Hcell.
  rewrite (list_filter_iff _ (λ r', uID r' = uID r ∧ mID r' = mID r))
    by (intros r'; by apply writes_iff).
  unfold last_rating. destruct (last _); simpl; [done|].
  destruct (dict_of_enumerate_bijection (uID <$> subset)) as (_ & Hu & _).
  destruct (dict_of_enumerate_bijection (mID <$> subset)) as (_ & Hm & _).
  apply cell_zeros; [by eapply Hu | by eapply Hm].
Qed.

Lemma score_same (l : list R) : l ≠ [] → score l l = Ok 0%R.
Proof.
  intros Hne. set (pairs := (λ x, (x, x)) <$> l).
  assert (pairs.*1 = l ∧ pairs.*2 = l) as [H1 H2].
  { unfold pairs. rewrite <- !list_fmap_compose. split; apply list_fmap_id. }
  assert (pairs ≠ []) as Hpairs by (unfold pairs; by destruct l).
  replace (score l l) with (score pairs.*1 pairs.*2) by (by rewrite H1, H2).
  rewrite score_rmse by done.
  f_equal. apply rmse_eq_0; [done|].
  unfold pairs. apply Forall_fmap, Forall_true. done.
Qed.

Lemma built_shape (subset : table) (b : built) :
  MatrixBuilder subset = Ok b →
  has_shape (ratings b) (length (u_index b)) (length (m_index b)).
Proof.
  destruct (MatrixBuilder_spec subset) as (a & Hb & Ha & _).
  rewrite Hb. by intros [= <-].
Qed.

(** X8: when the rating matrix itself is used as the reconstruction and
    every retained test row carries the last training rating of its pair,
    the score is exactly 0. *)
Theorem Evaluator_of_ratings (subset test_data : table) (b : built) :
  MatrixBuilder subset = Ok b →
  eval_set test_data (u_index b) (m_index b) ≠ [] →
  (∀ r, r ∈ eval_set test_data (u_index b) (m_index b) →
        last_rating (uID r) (mID r) subset = Some (rating r)) →
  Evaluator (ratings b) b test_data = Ok 0%R.
Proof.
  intros Hb Hne Hlast.
  destruct (Evaluator_retained_rows subset test_data b (ratings b) Hb
              (built_shape _ _ Hb)) as (preds & Hpreds & ->).
  set (rows := eval_set _ _ _) in *.
  assert (preds = rating <$> rows) as ->.
  { assert (∀ r, r ∈ rows → retained b r) as Hret.
    { intros r Hr. unfold rows in Hr.
      rewrite (eval_set_retained subset) in Hr by done.
      by apply list_elem_of_filter in Hr as [? _]. }
    clear Hne. induction Hpreds as [|r p rows preds Hp _ IH]; [done|].
    rewrite (prediction_of_ratings_default subset) in Hp
      by (done || apply Hret; left).
    rewrite Hlast in Hp by left. injection Hp as <-.
    rewrite fmap_cons. f_equal. apply IH.
    - intros r' Hr'. apply Hlast. by right.
    - intros r' Hr'. apply Hret. by right. }
  apply score_same. by destruct rows.
Qed.

(** X9: the Evaluator fails exactly when no test row is retained, and
    then with the [ValueError] of the input validation for zero samples:
    the two lists it collects always have the same length. *)
Theorem Evaluator_raises_iff (subset test_data : table) (b : built)
    (reconstructed : matrix) (e : exn) :
  MatrixBuilder subset = Ok b →
  has_shape reconstructed (length (u_index b)) (length (m_index b)) →
  Evaluator reconstructed b test_data = Raise e ↔
  e = ValueError ZeroSamples ∧
  eval_set test_data (u_index b) (m_index b) = [].
Proof.
  intros Hb Hshape.
  destruct (Evaluator_retained_rows subset test_data b reconstructed Hb Hshape)
    as (preds & Hpreds & ->).
  apply Forall2_length in Hpreds.
  unfold score, mean_squared_error. rewrite length_fmap.
  rewrite decide_False by lia.
  destruct (eval_set _ _ _) as [|r rows]; simpl.
  - split; [by intros [= <-] | by intros [-> _]].
  - split; [done | by intros [_ ?]].
Qed.

(** ** The score (line 83) *)

Lemma squared_error_sym (l k : list R) :
  zip_with (λ a p, ((a - p) ^ 2)%R) l k = zip_with (λ a p, ((a - p) ^ 2)%R) k l.
Proof.
  revert k. induction l as [|x l IH]; intros [|y k]; simpl; [done..|].
  rewrite IH. f_equal. ring.
Qed.

(** X10: the score does not depend on which of the two lists is called
    actual and which predicted, errors included. *)
Theorem score_symmetric (actual predicted : list R) :
  score actual predicted = score predicted actual.
Proof.
  unfold score, mean_squared_error.
  destruct (decide (length actual = length predicted)) as [Hlen|Hlen].
  - rewrite (decide_False (P := length actual ≠ length predicted)) by lia.
    rewrite (decide_False (P := length predicted ≠ length actual)) by lia.
    rewrite <- Hlen. case_decide; [done|]. unfold average.
    by rewrite squared_error_sym, !length_zip_with, Hlen.
  - rewrite (decide_True (P := length actual ≠ length predicted)) by lia.
    by rewrite (decide_True (P := length predicted ≠ length actual)) by lia.
Qed.

(** ** What the Sampler returns (lines 52-57) *)

Section sampler_results.
Context `{NumpyRandom}.

(** X2: when the Sampler returns, each sample has the requested number of
    distinct ids, all of them ids of the training table, so the table has
    at least that many distinct ids; and the subset consists, in table
    order, of the rows whose user and movie were both sampled. *)
Theorem Sampler_returns (nu nm : nat) (seed : Z) (train_data : table)
    (g : rng) (users movies : list Z) (subset : table) :
  (Sampler nu nm seed train_data g).1 = Ok (users, movies, subset) →
  (length users = nu ∧ NoDup users ∧ users ⊆ uID <$> train_data ∧
   nu ≤ length (unique (uID <$> train_data))) ∧
  (length movies = nm ∧ NoDup movies ∧ movies ⊆ mID <$> train_data ∧
   nm ≤ length (unique (mID <$> train_data))) ∧
  subset `sublist_of` train_data ∧
  (∀ r, r ∈ subset ↔ r ∈ train_data ∧ uID r ∈ users ∧ mID r ∈ movies).
Proof.
  intros Hok.
  apply Sampler_Ok in Hok as ((Hu & Hund & Huel) & (Hm & Hmnd & Hmel) & ->).
  assert (∀ x, x ∈ users → x ∈ unique (uID <$> train_data)) as Husub.
  { intros x (i & _ & Hi)%Huel. by eapply list_elem_of_lookup_2. }
  assert (∀ x, x ∈ movies → x ∈ unique (mID <$> train_data)) as Hmsub.
  { intros x (i & _ & Hi)%Hmel. by eapply list_elem_of_lookup_2. }
  split; [|split; [|split]].
  - repeat split; [done.. | |].
    + intros x Hx. by apply elem_of_unique, Husub.
    + rewrite <- Hu. by apply submseteq_length, NoDup_submseteq.
  - repeat split; [done.. | |].
    + intros x Hx. by apply elem_of_unique, Hmsub.
    + rewrite <- Hm. by apply submseteq_length, NoDup_submseteq.
  - rewrite restrict_filter. apply sublist_filter.
  - intros r. rewrite restrict_filter, list_elem_of_filter. tauto.
Qed.

(** X3: when the training table has exactly as many distinct users and
    movies as are requested, every id is sampled and the subset is the whole
    table, whatever the seed among those that numpy accepts (0 to
    2**32 - 1; any other seed raises). *)
Theorem Sampler_whole_table (nu nm : nat) (seed : Z) (train_data : table)
    (g : rng) :
  valid_seed seed →
  length (unique (uID <$> train_data)) = nu →
  length (unique (mID <$> train_data)) = nm →
  ∃ users movies,
    (Sampler nu nm seed train_data g).1 = Ok (users, movies, train_data) ∧
    users ≡ₚ unique (uID <$> train_data) ∧
    movies ≡ₚ unique (mID <$> train_data).
Proof.
  intros Hseed Hu Hm. rewrite Sampler_seeded. cbn [fst].
  destruct (seeded_sample_Ok nu seed (unique (uID <$> train_data)) Hseed
              (NoDup_unique _)) as (users & -> & Hulen & Hund & Huel); [lia|].
  destruct (seeded_sample_Ok nm seed (unique (mID <$> train_data)) Hseed
              (NoDup_unique _)) as (movies & -> & Hmlen & Hmnd & Hmel); [lia|].
  assert (users ≡ₚ unique (uID <$> train_data)) as Hup.
  { apply submseteq_length_Permutation; [|lia].
    apply NoDup_submseteq; [done|].
    intros x (i & _ & Hi)%Huel. by eapply list_elem_of_lookup_2. }
  assert (movies ≡ₚ unique (mID <$> train_data)) as Hmp.
  { apply submseteq_length_Permutation; [|lia].
    apply NoDup_submseteq; [done|].
    intros x (i & _ & Hi)%Hmel. by eapply list_elem_of_lookup_2. }
  exists users, movies. simpl. split; [|done].
  do 2 f_equal. rewrite restrict_filter. apply filter_all.
  intros r Hr. rewrite Hup, Hmp, !elem_of_unique.
  split; by apply list_elem_of_fmap_2.
Qed.
End sampler_results.

(** ** The reconstruction (lines 69-72) *)

Lemma vecmat_lookup (w : list R) (Hm : matrix) (M j : nat) :
  Forall (λ h, length h = M) Hm → j < M →
  vecmat w Hm M !! j = Some (inner w (column Hm j)).
Proof.
  intros Hall Hj. unfold vecmat, inner, column. revert w.
  induction Hall as [|h Hm Hh _ IH]; intros [|a w]; simpl;
    try by apply lookup_replicate_2.
  rewrite lookup_zip_with, list_lookup_fmap, IH.
  destruct (lookup_lt_is_Some_2 h j) as [x ->]; [lia|]. done.
Qed.

(** X13: the entry [(i, j)] of [np.dot(W, H)] is the inner product of the
    row [i] of [W] and the column [j] of [H]. *)
Theorem dot_entry (W Hm : matrix) (U K M i j : nat) (w : list R) :
  0 < K → has_shape W U K → has_shape Hm K M →
  W !! i = Some w → j < M →
  cell (dot W Hm) i j = Some (inner w (column Hm j)).
Proof.
  intros HK _ [HKlen Hcols] Hw Hj. unfold cell, dot.
  rewrite list_lookup_fmap, Hw. simpl.
  destruct Hm as [|h Hm]; [simpl in HKlen; lia|]. simpl.
  pose proof (Forall_inv Hcols) as Hh. simpl in Hh. rewrite Hh.
  by apply vecmat_lookup.
Qed.

(** X12: the reconstruction has the shape of the rating matrix, so it can
    be read at the positions of every row whose ids are keys of the two
    dicts. *)
Theorem reconstructed_readable `{NMFSolver} (subset : table) (b : built)
    (reconstructed : matrix) :
  MatrixBuilder subset = Ok b →
  reconstruct (ratings b) = Ok reconstructed →
  has_shape reconstructed (length (u_index b)) (length (m_index b)) ∧
  ∀ r, retained b r → is_Some (prediction reconstructed b r).
Proof.
  intros Hb Hrec.
  pose proof (reconstruct_shape _ _ _ _ (built_shape _ _ Hb) Hrec) as Hshape.
  split; [done|]. intros r Hr.
  destruct (prediction_is_Some _ _ _ _ Hb Hshape Hr)
    as (_ & _ & p & _ & _ & _ & _ & _ & Hp).
  by exists p.
Qed.

(** ** The two draws share their seed (lines 52-53) *)

Section shared_seed.
Context `{NumpyRandom}.

(** X4: with as many distinct users as distinct movies in the training
    table and equal sample sizes, the two draws take the same positions: the
    user at a position of the distinct users is sampled exactly when the
    movie at that position of the distinct movies is. *)
Theorem Sampler_same_positions (n : nat) (seed : Z) (train_data : table)
    (g : rng) (users movies : list Z) (subset : table) (i : nat) (u m : Z) :
  length (unique (uID <$> train_data)) = length (unique (mID <$> train_data)) →
  (Sampler n n seed train_data g).1 = Ok (users, movies, subset) →
  unique (uID <$> train_data) !! i = Some u →
  unique (mID <$> train_data) !! i = Some m →
  u ∈ users ↔ m ∈ movies.
Proof.
  intros Hlen Hok Hu Hm.
  apply Sampler_Ok in Hok as ((_ & _ & Huel) & (_ & _ & Hmel) & _).
  rewrite Huel, Hmel, Hlen. split.
  - intros (i' & Hi' & Hu').
    assert (i' = i) as ->
      by exact (NoDup_lookup _ _ _ _ (NoDup_unique _) Hu' Hu).
    by exists i.
  - intros (i' & Hi' & Hm').
    assert (i' = i) as ->
      by exact (NoDup_lookup _ _ _ _ (NoDup_unique _) Hm' Hm).
    by exists i.
Qed.
End shared_seed.

(** ** The cell as a whole (lines 52-83) *)

(** X7: read back through the two dicts, the rating matrix returns for
    every row of the subset the last training rating of its pair, and for
    any row with known ids that rating or 0 when the pair has no training
    row. *)
Theorem ratings_read_back (subset : table) (b : built) :
  MatrixBuilder subset = Ok b →
  (∀ r, r ∈ subset →
        is_Some (last_rating (uID r) (mID r) subset) ∧
        prediction (ratings b) b r = last_rating (uID r) (mID r) subset) ∧
  (∀ r, retained b r →
        prediction (ratings b) b r
        = Some (default 0%R (last_rating (uID r) (mID r) subset))).
Proof.
  intros Hb. split; [|intros r; by apply prediction_of_ratings_default].
  intros r Hr.
  assert (retained b r) as Hret.
  { apply (retained_iff subset); [done|].
    split; by apply list_elem_of_fmap_2. }
  rewrite (prediction_of_ratings_default subset) by done.
  unfold last_rating.
  destruct (last _) as [r'|] eqn:Hlast; simpl; [by split|].
  apply last_None in Hlast.
  assert (r ∈ filter (λ r', uID r' = uID r ∧ mID r' = mID r) subset) as Hin
    by (by apply list_elem_of_filter).
  rewrite Hlast in Hin. by apply elem_of_nil in Hin.
Qed.

Section pipeline_properties.
Context `{NumpyRandom} `{NMFSolver}.

Lemma notebook_pipeline (train_data test_data : table) (g : rng) :
  notebook train_data test_data g
  = pipeline n_users n_movies random_state n_components max_iter
             train_data test_data g.
Proof.
  unfold notebook, pipeline, reconstruct.
  destruct (Sampler _ _ _ _ _) as [[s|e] g']; simpl; [|done].
  destruct (MatrixBuilder _) as [b|e]; simpl; [|done].
  by destruct (fit_transform _ _ _ _) as [WH|e].
Qed.

(** X14: when the cell returns a score, the Sampler, the Matrix Builder
    and the solver all returned, at least one test row is retained, and the score
    is the RMSE of the retained rows against the product of the two
    factors; it is not negative. *)
Theorem pipeline_score (nu nm : nat) (seed : Z) (k it : nat)
    (train_data test_data : table) (g : rng) (s : R) :
  0 < k →
  (pipeline nu nm seed k it train_data test_data g).1 = Ok s →
  ∃ users movies subset b W Hm preds,
    (Sampler nu nm seed train_data g).1 = Ok (users, movies, subset) ∧
    MatrixBuilder subset = Ok b ∧
    fit_transform k seed it (ratings b) = Ok (W, Hm) ∧
    eval_set test_data (u_index b) (m_index b) ≠ [] ∧
    Forall2 (λ r p, prediction (dot W Hm) b r = Some p)
            (eval_set test_data (u_index b) (m_index b)) preds ∧
    s = rmse (zip (rating <$> eval_set test_data (u_index b) (m_index b))
                  preds) ∧
    (0 <= s)%R.
Proof.
  intros Hk. unfold pipeline.
  destruct (Sampler _ _ _ _ _) as [[[[users movies] subset]|e] g'] eqn:Hs;
    simpl; [|done].
  destruct (MatrixBuilder subset) as [b|e] eqn:Hb; simpl; [|done].
  destruct (fit_transform _ _ _ _) as [[W Hm]|e] eqn:Hfit; simpl; [|done].
  pose proof (built_shape _ _ Hb) as Ha.
  destruct (fit_transform_shape _ _ _ _ _ _ _ _ Ha Hfit) as [HW HHm].
  pose proof (dot_shape _ _ _ _ _ Hk HW HHm) as Hshape.
  destruct (Evaluator_retained_rows subset test_data b (dot W Hm) Hb Hshape)
    as (preds & Hpreds & ->).
  set (rows := eval_set _ _ _) in *. intros Hscore.
  assert (length (rating <$> rows) = length preds) as Hlen
    by (rewrite length_fmap; by eapply Forall2_length).
  assert (rows ≠ []) as Hne.
  { intros Hnil. rewrite Hnil in *. apply Forall2_nil_inv_l in Hpreds as ->.
    done. }
  rewrite <- (fst_zip (rating <$> rows) preds) in Hscore at 1 by lia.
  rewrite <- (snd_zip (rating <$> rows) preds) in Hscore at 2 by lia.
  rewrite score_rmse in Hscore by (destruct rows, preds; simpl in *; done).
  injection Hscore as <-.
  exists users, movies, subset, b, W, Hm, preds.
  repeat split; try done. apply rmse_nonneg.
Qed.
End pipeline_properties.

(** ** Instances of the further properties *)

Lemma notebook_raises_only_ValueError_witness :
  (notebook (H:=counter_random) (H0:=zero_solver)
     small_subset small_test 0%nat).1
  = Raise (ValueError LargerSampleThanPopulation) ∧
  ∃ why, ValueError LargerSampleThanPopulation = ValueError why.
Proof.
  split; [reflexivity|].
  exact (notebook_raises_only_ValueError (H:=counter_random)
           (H0:=zero_solver) small_subset small_test 0%nat _ eq_refl).
Defined.

Lemma Sampler_returns_witness :
  (Sampler (H:=counter_random) 2 1 42 small_subset 0%nat).1
  = Ok ([7; 8]%Z, [3]%Z, small_subset) ∧
  (length [7; 8]%Z = 2 ∧ NoDup [7; 8]%Z ∧ [7; 8]%Z ⊆ uID <$> small_subset ∧
   2 ≤ length (unique (uID <$> small_subset))) ∧
  (length [3]%Z = 1 ∧ NoDup [3]%Z ∧ [3]%Z ⊆ mID <$> small_subset ∧
   1 ≤ length (unique (mID <$> small_subset))) ∧
  small_subset `sublist_of` small_subset ∧
  (∀ r, r ∈ small_subset ↔
        r ∈ small_subset ∧ uID r ∈ [7; 8]%Z ∧ mID r ∈ [3]%Z).
Proof.
  split; [reflexivity|].
  exact (Sampler_returns (H:=counter_random) 2 1 42 small_subset 0%nat
           _ _ _ eq_refl).
Defined.

Lemma small_seed_valid : valid_seed 7.
Proof. unfold valid_seed. lia. Defined.

Lemma Sampler_whole_table_witness :
  valid_seed 7 ∧
  length (unique (uID <$> small_subset)) = 2 ∧
  length (unique (mID <$> small_subset)) = 1 ∧
  ∃ users movies,
    (Sampler (H:=counter_random) 2 1 7 small_subset 5%nat).1
    = Ok (users, movies, small_subset) ∧
    users ≡ₚ unique (uID <$> small_subset) ∧
    movies ≡ₚ unique (mID <$> small_subset).
Proof.
  split; [exact small_seed_valid|].
  split; [reflexivity|]. split; [reflexivity|].
  exact (Sampler_whole_table (H:=counter_random) 2 1 7 small_subset 5%nat
           small_seed_valid eq_refl eq_refl).
Defined.

Lemma Sampler_same_positions_witness :
  length (unique (uID <$> [Row 7 3 5; Row 8 4 2]))
  = length (unique (mID <$> [Row 7 3 5; Row 8 4 2])) ∧
  (Sampler (H:=counter_random) 1 1 1 [Row 7 3 5; Row 8 4 2] 0%nat).1
  = Ok ([8]%Z, [4]%Z, [Row 8 4 2]) ∧
  unique (uID <$> [Row 7 3 5; Row 8 4 2]) !! 1%nat = Some 8%Z ∧
  unique (mID <$> [Row 7 3 5; Row 8 4 2]) !! 1%nat = Some 4%Z ∧
  (8%Z ∈ [8]%Z ↔ 4%Z ∈ [4]%Z).
Proof.
  split; [reflexivity|]. split; [reflexivity|].
  split; [reflexivity|]. split; [reflexivity|].
  exact (Sampler_same_positions (H:=counter_random) 1 1
           [Row 7 3 5; Row 8 4 2] 0%nat _ _ _ 1%nat 8%Z 4%Z
           eq_refl eq_refl eq_refl eq_refl).
Defined.

Lemma ratings_read_back_witness :
  MatrixBuilder small_subset = Ok small_built ∧
  (∀ r, r ∈ small_subset →
        is_Some (last_rating (uID r) (mID r) small_subset) ∧
        prediction (ratings small_built) small_built r
        = last_rating (uID r) (mID r) small_subset) ∧
  (∀ r, retained small_built r →
        prediction (ratings small_built) small_built r
        = Some (default 0%R (last_rating (uID r) (mID r) small_subset))).
Proof.
  split; [reflexivity|].
  exact (ratings_read_back small_subset small_built eq_refl).
Defined.

Lemma small_exact_eval_set :
  eval_set small_exact_test (u_index small_built) (m_index small_built)
  = [Row 7 3 1; Row 8 3 2].
Proof. reflexivity. Defined.

Lemma small_exact_nonempty :
  eval_set small_exact_test (u_index small_built) (m_index small_built) ≠ [].
Proof. rewrite small_exact_eval_set. discriminate. Defined.

Lemma small_exact_last (r : row) :
  r ∈ eval_set small_exact_test (u_index small_built) (m_index small_built) →
  last_rating (uID r) (mID r) small_subset = Some (rating r).
Proof.
  rewrite small_exact_eval_set.
  intros [->|[->|[]%elem_of_nil]%elem_of_cons]%elem_of_cons; reflexivity.
Defined.

Lemma Evaluator_of_ratings_witness :
  MatrixBuilder small_subset = Ok small_built ∧
  eval_set small_exact_test (u_index small_built) (m_index small_built) ≠ [] ∧
  (∀ r, r ∈ eval_set small_exact_test (u_index small_built)
                     (m_index small_built) →
        last_rating (uID r) (mID r) small_subset = Some (rating r)) ∧
  Evaluator (ratings small_built) small_built small_exact_test = Ok 0%R.
Proof.
  split; [reflexivity|]. split; [exact small_exact_nonempty|].
  split; [exact small_exact_last|].
  exact (Evaluator_of_ratings small_subset small_exact_test small_built
           eq_refl small_exact_nonempty small_exact_last).
Defined.

Lemma Evaluator_raises_iff_witness :
  MatrixBuilder small_subset = Ok small_built ∧
  has_shape [[1%R]; [4%R]] (length (u_index small_built))
            (length (m_index small_built)) ∧
  (Evaluator [[1%R]; [4%R]] small_built [Row 9 3 4]
   = Raise (ValueError ZeroSamples) ↔
   ValueError ZeroSamples = ValueError ZeroSamples ∧
   eval_set [Row 9 3 4] (u_index small_built) (m_index small_built) = []).
Proof.
  split; [reflexivity|]. split; [exact small_shape|].
  exact (Evaluator_raises_iff small_subset [Row 9 3 4] small_built
           [[1%R]; [4%R]] (ValueError ZeroSamples) eq_refl small_shape).
Defined.

Lemma reconstructed_readable_witness :
  MatrixBuilder small_subset = Ok small_built ∧
  reconstruct (H0:=zero_solver) (ratings small_built)
  = Ok (dot (zeros 2 20) (zeros 20 1)) ∧
  has_shape (dot (zeros 2 20) (zeros 20 1))
            (length (u_index small_built)) (length (m_index small_built)) ∧
  ∀ r, retained small_built r →
       is_Some (prediction (dot (zeros 2 20) (zeros 20 1)) small_built r).
Proof.
  split; [reflexivity|]. split; [reflexivity|].
  exact (reconstructed_readable (H:=zero_solver) small_subset small_built _
           eq_refl eq_refl).
Defined.

Lemma dot_entry_witness :
  0 < 2 ∧ has_shape [[1%R; 2%R]] 1 2 ∧ has_shape [[3%R]; [4%R]] 2 1 ∧
  [[1%R; 2%R]] !! 0%nat = Some [1%R; 2%R] ∧ 0 < 1 ∧
  cell (dot [[1%R; 2%R]] [[3%R]; [4%R]]) 0 0
  = Some (inner [1%R; 2%R] (column [[3%R]; [4%R]] 0)).
Proof.
  assert (has_shape [[1%R; 2%R]] 1 2) as HW
    by (split; [reflexivity | repeat constructor]).
  assert (has_shape [[3%R]; [4%R]] 2 1) as HH
    by (split; [reflexivity | repeat constructor]).
  split; [lia|]. split; [exact HW|]. split; [exact HH|].
  split; [reflexivity|]. split; [lia|].
  apply (dot_entry [[1%R; 2%R]] [[3%R]; [4%R]] 1 2 1 0 0 [1%R; 2%R]);
    [lia | exact HW | exact HH | reflexivity | lia].
Defined.

Lemma pipeline_score_witness :
  0 < 1 ∧
  (pipeline (H:=counter_random) (H0:=zero_solver) 2 1 42 1 1
     small_subset small_test 0%nat).1 = Ok small_score ∧
  ∃ users movies subset b W Hm preds,
    (Sampler (H:=counter_random) 2 1 42 small_subset 0%nat).1
    = Ok (users, movies, subset) ∧
    MatrixBuilder subset = Ok b ∧
    fit_transform (NMFSolver:=zero_solver) 1 42 1 (ratings b) = Ok (W, Hm) ∧
    eval_set small_test (u_index b) (m_index b) ≠ [] ∧
    Forall2 (λ r p, prediction (dot W Hm) b r = Some p)
            (eval_set small_test (u_index b) (m_index b)) preds ∧
    small_score
    = rmse (zip (rating <$> eval_set small_test (u_index b) (m_index b))
                preds) ∧
    (0 <= small_score)%R.
Proof.
  split; [lia|]. split; [reflexivity|].
  apply (pipeline_score (H:=counter_random) (H0:=zero_solver) 2 1 42 1 1
           small_subset small_test 0%nat small_score); [lia | reflexivity].
Defined.

(** * The score in binary64 *)

(** *** No operation of the score returns NaN or a negative value *)














(** *** The float64 value of a count below 2^53 *)






(** *** Equal values *)


(** *** The score *)











(** Rounding at work: three pairs with the error 4 - 0.6 have a score one
    unit in the last place below that error, so the score is not bounded
    below by the smallest absolute error. *)
Example score64_rounds_below :
  score64 [4%float; 4%float; 4%float]
          [0x1.3333333333333p-1%float; 0x1.3333333333333p-1%float;
           0x1.3333333333333p-1%float]
  = Ok 0x1.b333333333332p+1%float ∧
  (4 - 0x1.3333333333333p-1)%float = 0x1.b333333333333p+1%float.
Proof. split; reflexivity. Qed.

(** The input validation: an infinite value and an empty input raise. *)
Example score64_raises :
  score64 [4%float; 2%float] [infinity; 2%float]
  = Raise (ValueError InputNotFinite) ∧
  score64 [] [] = Raise (ValueError ZeroSamples).
Proof. split; reflexivity. Qed.
